(** * eml-extractor: a shallow embedding of [eml_extractor.py]

    The script scans a directory (or takes an explicit list) of [.eml]
    files and writes every attachment of every message into a destination
    directory under a random name.  This development embeds the script's
    functions as executable Rocq definitions over an explicit world
    (file system, standard input, entropy source, event log) and proves the
    properties its specification states.

    Conventions of the embedding.
    - A Python [str] is a list of Unicode code points ([N]); [py] turns a
      Rocq string literal into one.
    - The Unicode tables behind [str.isalpha], [str.isdigit],
      [str.isspace] and the non-ASCII part of [str.upper], and the mail
      parser behind [message_from_file], are library data: they are Section
      variables, so every theorem holds for every such table and parser.
    - The operating system is POSIX ([os.path] is [posixpath], globbing is
      case sensitive).  The file system is a finite map from absolute
      component lists to nodes; symbolic links, permissions and [..]
      components are outside the model.
    - Python exceptions are values of [exn]; a computation returns a result
      together with the world it leaves behind, so the effects performed
      before an exception stay visible. *)

From Stdlib Require Import ZArith NArith List String Ascii Lia Bool.
From stdpp Require Import base option list gmap.

Import ListNotations.
Local Open Scope N_scope.
Local Open Scope list_scope.

(** ** Python strings *)

Definition char := N.
Definition str := list char.
Definition bytes := list Byte.byte.

Definition py (s : string) : str := map N_of_ascii (list_ascii_of_string s).

(** The double quote character, written out because it cannot appear in a
    literal. *)
Definition dq : str := [34].

Definition str_eqb (a b : str) : bool := bool_decide (a = b).

Definition c_slash : char := 47.
Definition c_dot : char := 46.
Definition c_space : char := 32.

(** [str.rfind] for a one-character needle: the highest index holding [c],
    or [-1]. *)
Fixpoint rfind_from (c : char) (s : str) (i last : Z) : Z :=
  match s with
  | [] => last
  | x :: s' => rfind_from c s' (i + 1)%Z (if N.eqb x c then i else last)
  end.

Definition rfind (c : char) (s : str) : Z := rfind_from c s 0%Z (-1)%Z.

(** Slices [p[:i]] and [p[i:]] for a non-negative index. *)
Definition slice_to (p : str) (i : Z) : str := take (Z.to_nat i) p.
Definition slice_from (p : str) (i : Z) : str := drop (Z.to_nat i) p.

(** ** [os.path.splitext] (posixpath, through [genericpath._splitext])

    [sep = '/'], no [altsep], [extsep = '.'].  The [while] loop of the
    library looks for a character other than a dot between the last
    separator and the last dot; it runs [dotIndex - filenameIndex] times at
    most, which is the recursion argument here. *)
Fixpoint splitext_scan (p : str) (filenameIndex : Z) (steps : nat) : bool :=
  match steps with
  | O => false
  | S k =>
      match p !! Z.to_nat filenameIndex with
      | Some x =>
          if N.eqb x c_dot then splitext_scan p (filenameIndex + 1)%Z k
          else true
      | None => true
      end
  end.

Definition splitext (p : str) : str * str :=
  let sepIndex := rfind c_slash p in
  let dotIndex := rfind c_dot p in
  if (sepIndex <? dotIndex)%Z then
    let filenameIndex := (sepIndex + 1)%Z in
    if splitext_scan p filenameIndex (Z.to_nat (dotIndex - filenameIndex))
    then (slice_to p dotIndex, slice_from p dotIndex)
    else (p, [])
  else (p, []).

(** ** [secrets.token_hex] *)

Definition hexdigit (n : N) : char := if n <? 10 then 48 + n else 87 + n.

Definition hexlify (bs : bytes) : str :=
  flat_map (fun b => let n := Byte.to_N b in
                     [hexdigit (n / 16); hexdigit (n mod 16)]) bs.

Definition is_hex_char (c : char) : bool :=
  ((48 <=? c) && (c <=? 57)) || ((97 <=? c) && (c <=? 102)).

(** A token as [token_hex nbytes] returns it: [2 * nbytes] lowercase
    hexadecimal digits. *)
Definition is_hex_token (nbytes : nat) (s : str) : Prop :=
  length s = (2 * nbytes)%nat /\ forallb is_hex_char s = true.

(** ** Character classes and case mapping *)

Section Unicode.

(** [str.isalpha], [str.isdigit] and [str.isspace] on one code point. *)
Variables isalpha isdigit isspace : char -> bool.

(** Full upper-case mapping of a code point above the ASCII range (one code
    point can map to several, as in the library). *)
Variable uc_upper : char -> str.

Definition upper_char (c : char) : str :=
  if (97 <=? c) && (c <=? 122) then [c - 32]
  else if c <? 128 then [c]
  else uc_upper c.

Definition upper (s : str) : str := flat_map upper_char s.

(** [str.rstrip()] with no argument: trailing white space removed. *)
Fixpoint rstrip (s : str) : str :=
  match s with
  | [] => []
  | c :: s' =>
      match rstrip s' with
      | [] => if isspace c then [] else [c]
      | r => c :: r
      end
  end.

End Unicode.

(** ** Paths ([pathlib.PurePosixPath]) *)

(** [s.split('/')]. *)
Fixpoint split_slash (s : str) : list str :=
  match s with
  | [] => [[]]
  | c :: s' =>
      if N.eqb c c_slash then [] :: split_slash s'
      else match split_slash s' with
           | [] => [[c]]
           | x :: xs => (c :: x) :: xs
           end
  end.

(** A path object: whether it starts at the root, and its components. *)
Record Path := MkPath { anchored : bool; parts : list str }.

(** The components kept by the path parser: empty ones and [.] are dropped. *)
Definition keep_part (c : str) : bool :=
  negb (str_eqb c []) && negb (str_eqb c [c_dot]).

Definition parse_parts (s : str) : list str :=
  List.filter keep_part (split_slash s).

Definition starts_with_slash (s : str) : bool :=
  match s with
  | c :: _ => N.eqb c c_slash
  | [] => false
  end.

(** [Path(s)]. *)
Definition Path_of (s : str) : Path :=
  {| anchored := starts_with_slash s; parts := parse_parts s |}.

(** [base / s]: an anchored right operand replaces the left one. *)
Definition joinpath (base : Path) (s : str) : Path :=
  if starts_with_slash s then Path_of s
  else {| anchored := anchored base; parts := parts base ++ parse_parts s |}.

Fixpoint join_slash (l : list str) : str :=
  match l with
  | [] => []
  | [x] => x
  | x :: l' => x ++ c_slash :: join_slash l'
  end.

(** [str(p)]. *)
Definition path_str (p : Path) : str :=
  if anchored p then c_slash :: join_slash (parts p)
  else match parts p with
       | [] => [c_dot]
       | l => join_slash l
       end.

(** [p.name]: the final component, or the empty string. *)
Definition name (p : Path) : str := List.last (parts p) [].

(** [p.suffix]: the final component from its last dot on, when that dot is
    neither its first nor its last character. *)
Definition suffix (p : Path) : str :=
  let n := name p in
  let i := rfind c_dot n in
  if (0 <? i)%Z && (i <? Z.of_nat (length n) - 1)%Z then slice_from n i
  else [].

(** ** The world *)

Inductive node := File (content : bytes) | Dir.

Inductive exn :=
| FileNotFoundError
| IsADirectoryError
| NotADirectoryError
| FileExistsError
| TypeError
| EOFError
| ArgumentTypeError (msg : str)
| SystemExit (code : Z)
| LibraryError (what : str).

(** What a run leaves behind, in order: lines printed, prompts shown with
    the answer read, and the changes made to the file system. *)
Inductive event :=
| EPrint (line : str)
| EInput (prompt : str) (answer : option str)
| ECreateDir (at_ : list str)
| ETruncate (at_ : list str)
| EWrite (at_ : list str) (data : bytes).

Record World := MkWorld {
  fs : gmap (list str) node;
  cwd : list str;
  stdin : list str;
  urandom : nat -> Byte.byte;
  drawn : nat;
  log : list event
}.

Definition set_fs (f : gmap (list str) node) (w : World) : World :=
  MkWorld f (cwd w) (stdin w) (urandom w) (drawn w) (log w).

Definition set_stdin (i : list str) (w : World) : World :=
  MkWorld (fs w) (cwd w) i (urandom w) (drawn w) (log w).

Definition set_drawn (n : nat) (w : World) : World :=
  MkWorld (fs w) (cwd w) (stdin w) (urandom w) n (log w).

Definition emit (e : event) (w : World) : World :=
  MkWorld (fs w) (cwd w) (stdin w) (urandom w) (drawn w) (log w ++ [e]).

(** A relative path is looked up from the working directory [here]. *)
Definition resolve (here : list str) (p : Path) : list str :=
  if anchored p then parts p else here ++ parts p.

Definition parent (a : list str) : list str := removelast a.

(** ** Computations *)

Inductive result (A : Type) :=
| Ok (a : A)
| Raise (e : exn).
Arguments Ok {A} a.
Arguments Raise {A} e.

Definition M (A : Type) : Type := World -> result A * World.

Definition ret {A} (a : A) : M A := fun w => (Ok a, w).

Definition raise {A} (e : exn) : M A := fun w => (Raise e, w).

Definition bind {A B} (m : M A) (k : A -> M B) : M B :=
  fun w => match m w with
           | (Ok a, w') => k a w'
           | (Raise e, w') => (Raise e, w')
           end.

Definition lift {A} (r : result A) : M A := fun w => (r, w).

Declare Scope py_scope.
Delimit Scope py_scope with py.
Notation "'let*' x ':=' c1 'in' c2" := (bind c1 (fun x => c2))
  (at level 10, x name, c1 at level 100, c2 at level 200) : py_scope.
Notation "c1 >> c2" := (bind c1 (fun _ => c2))
  (at level 90, right associativity) : py_scope.
Local Open Scope py_scope.

(** A [for] statement whose body neither breaks nor returns a value. *)
Fixpoint for_ {A} (l : list A) (body : A -> M unit) : M unit :=
  match l with
  | [] => ret tt
  | x :: l' => body x >> for_ l' body
  end.

(** A list comprehension over an effectful function. *)
Fixpoint mapM {A B} (f : A -> M B) (l : list A) : M (list B) :=
  match l with
  | [] => ret []
  | x :: l' => let* y := f x in let* ys := mapM f l' in ret (y :: ys)
  end.

(** ** Primitives of the run time *)

Definition print (line : str) : M unit :=
  fun w => (Ok tt, emit (EPrint line) w).

(** [input(prompt)]: the prompt is shown, then one line is read; end of
    input raises. *)
Definition input (prompt : str) : M str :=
  fun w => match stdin w with
           | [] => (Raise EOFError, emit (EInput prompt None) w)
           | a :: rest =>
               (Ok a, emit (EInput prompt (Some a)) (set_stdin rest w))
           end.

(** [secrets.token_bytes]: the next bytes of the entropy source. *)
Definition token_bytes (nbytes : nat) : M bytes :=
  fun w => (Ok (map (urandom w) (seq (drawn w) nbytes)),
            set_drawn (drawn w + nbytes)%nat w).

Definition token_hex (nbytes : nat) : M str :=
  let* bs := token_bytes nbytes in ret (hexlify bs).

Definition path_exists (p : Path) : M bool :=
  fun w => (Ok (bool_decide (is_Some (fs w !! resolve (cwd w) p))), w).

Definition is_dir (p : Path) : M bool :=
  fun w => (Ok (match fs w !! resolve (cwd w) p with
                | Some Dir => true
                | _ => false
                end), w).

Definition is_file (p : Path) : M bool :=
  fun w => (Ok (match fs w !! resolve (cwd w) p with
                | Some (File _) => true
                | _ => false
                end), w).

(** [p.open()] followed by reading the whole file. *)
Definition open_read (p : Path) : M bytes :=
  fun w => match fs w !! resolve (cwd w) p with
           | Some (File c) => (Ok c, w)
           | Some Dir => (Raise IsADirectoryError, w)
           | None => (Raise FileNotFoundError, w)
           end.

(** [p.mkdir(exist_ok=True)]: an existing directory is accepted, an
    existing file is not, and the parent has to be there. *)
Definition mkdir_exist_ok (p : Path) : M unit :=
  fun w =>
    let a := resolve (cwd w) p in
    match fs w !! a with
    | Some Dir => (Ok tt, w)
    | Some (File _) => (Raise FileExistsError, w)
    | None =>
        match fs w !! parent a with
        | Some Dir => (Ok tt, emit (ECreateDir a) (set_fs (<[a := Dir]> (fs w)) w))
        | Some (File _) => (Raise NotADirectoryError, w)
        | None => (Raise FileNotFoundError, w)
        end
    end.

(** [p.open('wb')]: the file is created, or emptied when it exists. *)
Definition open_wb (p : Path) : M unit :=
  fun w =>
    let a := resolve (cwd w) p in
    match fs w !! a with
    | Some Dir => (Raise IsADirectoryError, w)
    | _ =>
        match fs w !! parent a with
        | Some Dir =>
            (Ok tt, emit (ETruncate a) (set_fs (<[a := File []]> (fs w)) w))
        | Some (File _) => (Raise NotADirectoryError, w)
        | None => (Raise FileNotFoundError, w)
        end
    end.

(** [f.write(payload)] on the handle opened at [p]; a payload that is
    [None] is a type error. *)
Definition write (p : Path) (payload : option bytes) : M unit :=
  fun w =>
    let a := resolve (cwd w) p in
    match payload with
    | None => (Raise TypeError, w)
    | Some data =>
        match fs w !! a with
        | Some (File c) =>
            (Ok tt, emit (EWrite a data)
                      (set_fs (<[a := File (c ++ data)]> (fs w)) w))
        | _ => (Raise FileNotFoundError, w)
        end
    end.

(** ** Parsed messages

    What the script uses of a parsed message: the subject header and the
    parts [iter_attachments()] yields; of a part, whether its disposition
    is [attachment], the file name it declares, and what
    [get_payload(decode=True)] does (bytes, [None] for a part that is
    itself a container, or an exception). *)

Record MessagePart := MkPart {
  is_attachment : bool;
  get_filename : option str;
  get_payload_decode : result (option bytes)
}.

Record EmailMessage := MkMessage {
  get_subject : option str;
  iter_attachments : list MessagePart
}.

(** ** Directory listing and globbing *)

Definition ends_with (s t : str) : bool :=
  (length t <=? length s)%nat && str_eqb (drop (length s - length t) s) t.

(** [fnmatch] against the pattern [*.eml]. *)
Definition fnmatch_eml (n : str) : bool := ends_with n (py ".eml").

Definition is_dir_at (w : World) (a : list str) : bool :=
  match fs w !! a with
  | Some Dir => true
  | _ => false
  end.

(** The names of the entries of directory [a]. *)
Definition scandir (w : World) (a : list str) : list str :=
  omap (fun kv : list str * node =>
          let k := kv.1 in
          if bool_decide (k <> [] /\ parent k = a) then Some (List.last k [])
          else None)
       (map_to_list (fs w)).

(** [path] extended by components found on disk. *)
Definition descend (path : Path) (rel : list str) : Path :=
  {| anchored := anchored path; parts := parts path ++ rel |}.

(** Every directory on the way from [a] down to the entry [a ++ rel],
    [a] included, is a directory. *)
Definition walk_ok (w : World) (a rel : list str) : bool :=
  forallb (fun i => is_dir_at w (a ++ take i rel)) (seq 0 (length rel)).

(** [path.glob('*.eml')]. *)
Definition glob_eml (path : Path) : M (list Path) :=
  fun w =>
    let a := resolve (cwd w) path in
    if is_dir_at w a then
      (Ok (map (fun n => descend path [n])
               (List.filter fnmatch_eml (scandir w a))), w)
    else (Ok [], w).

(** [path.rglob('*.eml')]. *)
Definition rglob_eml (path : Path) : M (list Path) :=
  fun w =>
    let a := resolve (cwd w) path in
    (Ok (omap (fun kv : list str * node =>
                 let k := kv.1 in
                 let rel := drop (length a) k in
                 if bool_decide (take (length a) k = a)
                    && negb (bool_decide (rel = []))
                    && walk_ok w a rel
                    && fnmatch_eml (List.last rel [])
                 then Some (descend path rel)
                 else None)
              (map_to_list (fs w))), w).

(** ** Command line

    The tokenising of [argv] is the argument-parsing library's; the script
    declares the options.  A command line is given here as the option
    occurrences the library recognises, in order. *)

Inductive cli_arg :=
| OptSource (v : str)
| OptRecursive
| OptFiles (vs : list str)
| OptDestination (v : str)
| OptHelp.

Record Namespace := MkNamespace {
  ns_source : Path;
  ns_recursive : bool;
  ns_files : option (list Path);
  ns_destination : Path
}.

(** ** Sample data

    Tables for the ASCII range, a parser that knows three file contents,
    and a small disk, used to run the script on concrete inputs. *)

Definition ascii_isalpha (c : char) : bool :=
  ((65 <=? c) && (c <=? 90)) || ((97 <=? c) && (c <=? 122)).

Definition ascii_isdigit (c : char) : bool := (48 <=? c) && (c <=? 57).

Definition ascii_isspace (c : char) : bool :=
  ((9 <=? c) && (c <=? 13)) || N.eqb c 32.

(** Upper-casing that leaves every code point above the ASCII range as it
    is. *)
Definition plain_upper (c : char) : str := [c].

(** A message with one attachment named [report.pdf] holding one byte. *)
Definition report_part : MessagePart :=
  MkPart true (Some (py "report.pdf")) (Ok (Some [Byte.x41])).

Definition report_message : EmailMessage := MkMessage None [report_part].

(** A message whose only part has the disposition [attachment] and no file
    name. *)
Definition unnamed_part : MessagePart := MkPart true None (Ok (Some [])).

Definition unnamed_message : EmailMessage := MkMessage None [unnamed_part].

Definition sample_parser (content : bytes) : result EmailMessage :=
  match content with
  | [] => Ok unnamed_message
  | [Byte.x01] => Ok report_message
  | _ => Raise (LibraryError (py "not a message"))
  end.

Definition zero_name : str := py "00000000000000000000.pdf".

Definition sample_fs : gmap (list str) node :=
  list_to_map
    [ ([], Dir);
      ([py "mail"], Dir);
      ([py "mail"; py "a.eml"], File [Byte.x01]);
      ([py "mail"; py "b.eml"], File []);
      ([py "mail"; py "bad.eml"], File [Byte.x02]);
      ([py "mail"; py "x.eml"], Dir);
      ([py "mail"; py "x.eml"; py "c.eml"], File [Byte.x01]);
      ([py "out"], Dir);
      ([py "out"; zero_name], File [Byte.x42]) ].

(** The sample disk, the working directory [/mail], one answer [n] waiting
    on standard input and an entropy source that yields zeros. *)
Definition sample_world : World :=
  MkWorld sample_fs [py "mail"] [py "n"] (fun _ => Byte.x00) 0 [].

Definition a_eml : Path := Path_of (py "/mail/a.eml").
Definition b_eml : Path := Path_of (py "/mail/b.eml").
Definition bad_eml : Path := Path_of (py "/mail/bad.eml").
Definition out_dir : Path := Path_of (py "/out").
Definition mail_dir : Path := Path_of (py "/mail").
Definition root_dir : Path := Path_of (py "/").

(** The same world with the answer [y] waiting instead. *)
Definition yes_world : World := set_stdin [py "y"] sample_world.



(** A command line naming three files, the second of which does not
    parse, and the namespace it parses to. *)
Definition batch_argv : list cli_arg :=
  [ OptFiles [py "/mail/a.eml"; py "/mail/bad.eml"; py "/mail/b.eml"];
    OptDestination (py "/") ].

Definition batch_args : Namespace :=
  MkNamespace mail_dir false (Some [a_eml; bad_eml; b_eml]) root_dir.


(** ** The script *)

Section Script.

Variables isalpha isdigit isspace : char -> bool.
Variable uc_upper : char -> str.

(** [message_from_file(f, policy=policy.default)] on the bytes of the
    file, text decoding included. *)
Variable message_from_file : bytes -> result EmailMessage.

Definition save_attachment (file : Path) (payload : option bytes) : M unit :=
  open_wb file >>
  print (py ">> Saving attachment to " ++ dq ++ path_str file ++ dq) >>
  write file payload.

(** The name the script gives an attachment, from the token drawn and the
    declared file name (lines 24 to 26).  The filtered name of line 25 is
    computed and then overwritten, as in the source. *)
Definition target_filename (tok : str) (filename : str) : str :=
  let '(filenamea, file_extension) := splitext filename in
  let filename :=
    rstrip isspace
      (List.filter (fun c => isalpha c || isdigit c || N.eqb c c_space)
                   filename) in
  let filename := tok ++ file_extension in
  filename.

(** The body of the loop over the attachments (lines 21 to 35). *)
Definition extract_one (basepath : Path) (attachment : MessagePart) : M unit :=
  match get_filename attachment with
  | None => ret tt
  | Some [] => ret tt
  | Some filename =>
      let* tok := token_hex 10 in
      let filename := target_filename tok filename in
      print (py ">> Attachment found: " ++ filename) >>
      let filepath := joinpath basepath filename in
      let* payload := lift (get_payload_decode attachment) in
      let* found := path_exists filepath in
      if found then
        let* overwrite :=
          input (py ">> The file " ++ dq ++ filename ++ dq
                 ++ py " already exists! Overwrite it (Y/n)? ") in
        if str_eqb (upper uc_upper overwrite) (py "Y")
        then save_attachment filepath payload
        else print (py ">> Skipping...")
      else
        mkdir_exist_ok basepath >>
        save_attachment filepath payload
  end.

Definition extract_attachments (file destination : Path) : M unit :=
  print (py "PROCESSING FILE " ++ dq ++ path_str file ++ dq) >>
  let* f := open_read file in
  let* email_message := lift (message_from_file f) in
  let email_subject := get_subject email_message in
  let basepath := destination in
  let attachments :=
    List.filter is_attachment (iter_attachments email_message) in
  match attachments with
  | [] => print (py ">> No attachments found.")
  | _ => for_ attachments (extract_one basepath)
  end.

(** The characters of the class [illegal_chars] (line 38). *)
Definition illegal_chars : str := py "/\|[]{}:<>+=;,?!*~#$%&@'" ++ dq.

(** [re.sub(illegal_chars, '_', name)]; nothing in the script calls it. *)
Definition sanitize_foldername (name : str) : str :=
  map (fun c => if existsb (N.eqb c) illegal_chars then 95 else c) name.

Definition get_eml_files_from (path : Path) (recursively : bool)
  : M (list Path) :=
  if recursively then rglob_eml path else glob_eml path.

Definition check_file (arg_value : str) : M Path :=
  let file := Path_of arg_value in
  let* regular := is_file file in
  if regular && str_eqb (suffix file) (py ".eml") then ret file
  else raise (ArgumentTypeError
                (dq ++ path_str file ++ dq ++ py " is not a valid EML file.")).

Definition check_path (arg_value : str) : M Path :=
  let path := Path_of arg_value in
  let* d := is_dir path in
  if d then ret path
  else raise (ArgumentTypeError
                (dq ++ path_str path ++ dq ++ py " is not a valid directory.")).

(** A [type=] callable as the library runs it: its [ArgumentTypeError]
    becomes a usage error, which leaves with status 2. *)
Definition converted {A} (m : M A) : M A :=
  fun w => match m w with
           | (Raise (ArgumentTypeError _), w') => (Raise (SystemExit 2), w')
           | r => r
           end.

(** The options as [get_argument_parser] declares them, taken in order.
    [seen_source] and [seen_files] record which members of the mutually
    exclusive group have occurred. *)
Fixpoint consume (args : list cli_arg) (ns : Namespace)
    (seen_source seen_files : bool) : M Namespace :=
  match args with
  | [] => ret ns
  | OptHelp :: _ => raise (SystemExit 0)
  | OptRecursive :: rest =>
      consume rest
        (MkNamespace (ns_source ns) true (ns_files ns) (ns_destination ns))
        seen_source seen_files
  | OptDestination v :: rest =>
      let* p := converted (check_path v) in
      consume rest
        (MkNamespace (ns_source ns) (ns_recursive ns) (ns_files ns) p)
        seen_source seen_files
  | OptSource v :: rest =>
      let* p := converted (check_path v) in
      if seen_files then raise (SystemExit 2)
      else consume rest
             (MkNamespace p (ns_recursive ns) (ns_files ns) (ns_destination ns))
             true seen_files
  | OptFiles vs :: rest =>
      match vs with
      | [] => raise (SystemExit 2)
      | _ =>
          let* ps := mapM (fun v => converted (check_file v)) vs in
          if seen_source then raise (SystemExit 2)
          else consume rest
                 (MkNamespace (ns_source ns) (ns_recursive ns) (Some ps)
                    (ns_destination ns))
                 seen_source true
      end
  end.

(** [parse_arguments]: the defaults are the working directory, no
    recursion and no file list. *)
Definition parse_arguments (argv : list cli_arg) : M Namespace :=
  fun w =>
    let here := MkPath true (cwd w) in
    consume argv (MkNamespace here false None here) false false w.

(** [args.files or get_eml_files_from(...)]: a non-empty list is taken as
    it is, otherwise the directory is scanned. *)
Definition resolve_files (args : Namespace) : M (list Path) :=
  match ns_files args with
  | Some (f :: fl) => ret (f :: fl)
  | _ => get_eml_files_from (ns_source args) (ns_recursive args)
  end.

Definition main (argv : list cli_arg) : M unit :=
  let* args := parse_arguments argv in
  let* eml_files := resolve_files args in
  (match eml_files with
   | [] => print (py "No EML files found!")
   | _ => ret tt
   end) >>
  for_ eml_files (fun file => extract_attachments file (ns_destination args)) >>
  print (py "Done.").

(** ** Vocabulary of the statements *)

(** The token the next call of [token_hex 10] returns in world [w]. *)
Definition next_token (w : World) : str :=
  hexlify (map (urandom w) (seq (drawn w) 10)).

(** The text of the overwrite prompt for the file name [n] (line 31). *)
Definition overwrite_prompt (n : str) : str :=
  py ">> The file " ++ dq ++ n ++ dq
  ++ py " already exists! Overwrite it (Y/n)? ".

(** The name an attachment declared as [F] gets when it is processed in
    world [w]. *)
Definition generated_name (w : World) (F : str) : str :=
  next_token w ++ (splitext F).2.

(** The answers that accept an overwrite. *)
Definition accepts (answer : str) : bool :=
  str_eqb (upper uc_upper answer) (py "Y").

(** The line [save_attachment] prints. *)
Definition saving_line (file : Path) : str :=
  py ">> Saving attachment to " ++ dq ++ path_str file ++ dq.

(** The effect of one logged event on the file system. *)
Definition apply_event (e : event) (f : gmap (list str) node)
  : gmap (list str) node :=
  match e with
  | ECreateDir a => <[a := Dir]> f
  | ETruncate a => <[a := File []]> f
  | EWrite a data =>
      match f !! a with
      | Some (File c) => <[a := File (c ++ data)]> f
      | _ => f
      end
  | _ => f
  end.

Definition replay (evs : list event) (f : gmap (list str) node)
  : gmap (list str) node :=
  fold_left (fun f e => apply_event e f) evs f.

(** [w'] is [w] after the events [evs]: the log has grown by them, the file
    system has changed as they say, and the working directory is the
    same. *)
Definition delta (w w' : World) (evs : list event) : Prop :=
  log w' = log w ++ evs /\ fs w' = replay evs (fs w) /\ cwd w' = cwd w.

(** The world [save_attachment file payload] leaves when the file can be
    opened for writing. *)
Definition saved (file : Path) (payload : option bytes) (w : World) : World :=
  let a := resolve (cwd w) file in
  let w3 := emit (EPrint (saving_line file))
              (emit (ETruncate a) (set_fs (<[a := File []]> (fs w)) w)) in
  match payload with
  | None => w3
  | Some data =>
      emit (EWrite a data) (set_fs (<[a := File ([] ++ data)]> (fs w3)) w3)
  end.

(** The events of a successful [save_attachment]. *)
Definition saved_events (a : list str) (file : Path) (payload : option bytes)
  : list event :=
  ETruncate a :: EPrint (saving_line file)
  :: match payload with
     | None => []
     | Some data => [EWrite a data]
     end.

(** The world after [mkdir] has created the directory of [p]. *)
Definition made (p : Path) (w : World) : World :=
  let d := resolve (cwd w) p in
  emit (ECreateDir d) (set_fs (<[d := Dir]> (fs w)) w).

(** [F] is the non-empty file name declared by one of the parts [ps] whose
    disposition is [attachment]. *)
Definition declares (ps : list MessagePart) (F : str) : Prop :=
  exists part, In part ps /\ is_attachment part = true
               /\ get_filename part = Some F /\ F <> [].

(** [n] is a fresh token followed by the extension of [F]. *)
Definition fresh_name (F n : str) : Prop :=
  exists tok, is_hex_token 10 tok /\ n = tok ++ (splitext F).2.

(** What an event of the extraction of the parts [ps] into the directory
    [d] looks like. *)
Definition event_ok (d : list str) (ps : list MessagePart) (e : event) : Prop :=
  match e with
  | EPrint line => line <> py "Done."
  | EInput prompt _ =>
      exists F n, declares ps F /\ fresh_name F n /\ prompt = overwrite_prompt n
  | ECreateDir a => a = d
  | ETruncate a | EWrite a _ =>
      exists F n, declares ps F /\ fresh_name F n /\ a = d ++ [n]
  end.

(** Every creation of a directory is followed at once by the opening of a
    file in it. *)
Fixpoint dirs_used (evs : list event) : Prop :=
  match evs with
  | [] => True
  | ECreateDir a :: rest =>
      match rest with
      | ETruncate b :: _ => parent b = a /\ b <> []
      | _ => False
      end /\ dirs_used rest
  | _ :: rest => dirs_used rest
  end.



(** The events of a well-formed extraction. *)
Definition trace_ok (d : list str) (ps : list MessagePart) (evs : list event)
  : Prop :=
  Forall (event_ok d ps) evs /\ dirs_used evs.

(** The message [extract_attachments] gets from [file] in world [w], when
    the file can be read and parsed. *)
Definition message_of (file : Path) (w : World) : option EmailMessage :=
  match fs w !! resolve (cwd w) file with
  | Some (File c) =>
      match message_from_file c with
      | Ok m => Some m
      | Raise _ => None
      end
  | _ => None
  end.

(** The parts of that message, and none when there is no message. *)
Definition parts_of (file : Path) (w : World) : list MessagePart :=
  match message_of file w with
  | Some m => iter_attachments m
  | None => []
  end.




(** The loop of [main] over the files found. *)
Definition process (files : list Path) (destination : Path) : M unit :=
  for_ files (fun file => extract_attachments file destination).

Definition not_done (e : event) : Prop := e <> EPrint (py "Done.").

(** [p] is an entry, of whatever kind, directly in the directory [path]
    whose name ends in [.eml]. *)
Definition direct_match (w : World) (path p : Path) : Prop :=
  exists n stem,
    p = descend path [n] /\ n = stem ++ py ".eml"
    /\ fs w !! resolve (cwd w) path = Some Dir
    /\ is_Some (fs w !! (resolve (cwd w) path ++ [n])).

(** [p] is an entry, of whatever kind, at any depth below [path] whose
    name ends in [.eml] and that is reached through directories only. *)
Definition subtree_match (w : World) (path p : Path) : Prop :=
  exists rel stem,
    p = descend path rel /\ rel <> []
    /\ List.last rel [] = stem ++ py ".eml"
    /\ walk_ok w (resolve (cwd w) path) rel = true
    /\ is_Some (fs w !! (resolve (cwd w) path ++ rel)).

(** ** Vocabulary of the further properties *)

(** [c] is one of the characters [sanitize_foldername] replaces. *)
Definition illegal (c : char) : bool := existsb (N.eqb c) illegal_chars.

(** Nothing that was on disk in [w] is gone in [w'], and nothing has
    changed its kind: directories are directories, files are files. *)
Definition keeps_nodes (w w' : World) : Prop :=
  cwd w' = cwd w
  /\ (forall a, fs w !! a = Some Dir -> fs w' !! a = Some Dir)
  /\ (forall a c, fs w !! a = Some (File c) ->
        exists c', fs w' !! a = Some (File c')).


(** [p] names a regular file on the disk of [w] whose name is a non-empty
    stem followed by [.eml]. *)
Definition valid_eml (w : World) (p : Path) : Prop :=
  (exists c, fs w !! resolve (cwd w) p = Some (File c))
  /\ exists stem, stem <> [] /\ name p = stem ++ py ".eml".





(** * Properties *)

(** ** Strings: [rfind] and [splitext] *)

Lemma rfind_from_spec (c : char) (s : str) (i last : Z) :
  (rfind_from c s i last = last /\ c ∉ s) \/
  (exists k : nat, (k < length s)%nat /\
     rfind_from c s i last = (i + Z.of_nat k)%Z /\
     s !! k = Some c /\ c ∉ drop (S k) s).
Proof.
  revert i last. induction s as [|x s IH]; intros i last; simpl.
  - left. split; [reflexivity | apply not_elem_of_nil].
  - destruct (IH (i + 1)%Z (if N.eqb x c then i else last))
      as [[Hr Hn] | (k & Hk & Hr & Hl & Hd)].
    + destruct (N.eqb_spec x c) as [->|Hne].
      * right. exists 0%nat. simpl. rewrite Hr.
        repeat split; [lia | lia | rewrite drop_0; exact Hn].
      * left. split; [exact Hr|].
        rewrite not_elem_of_cons. split; [congruence | exact Hn].
    + right. exists (S k). simpl. repeat split; [lia | lia | exact Hl | exact Hd].
Qed.

Lemma rfind_spec (c : char) (s : str) :
  (rfind c s = (-1)%Z /\ c ∉ s) \/
  (exists k : nat, (k < length s)%nat /\ rfind c s = Z.of_nat k /\
     s !! k = Some c /\ c ∉ drop (S k) s).
Proof.
  unfold rfind. destruct (rfind_from_spec c s 0 (-1)) as [H | (k & H1 & H2 & H3)].
  - left. exact H.
  - right. exists k. rewrite H2. split; [exact H1|]. split; [lia | exact H3].
Qed.



(** The shape of every extension [splitext] returns: the name is the stem
    followed by the extension, and the extension is empty or one dot
    followed by characters that are neither dots nor separators. *)
Lemma splitext_shape (p stem ext : str) :
  splitext p = (stem, ext) ->
  p = stem ++ ext /\
  (ext = [] \/
   exists e, ext = c_dot :: e /\ (c_dot ∉ e) /\ (c_slash ∉ e) /\ stem <> []).
Proof.
  unfold splitext. intros H.
  destruct (Z.ltb_spec (rfind c_slash p) (rfind c_dot p)) as [Hlt|Hge].
  2:{ inversion H; subst. rewrite app_nil_r. auto. }
  destruct (splitext_scan p (rfind c_slash p + 1)
              (Z.to_nat (rfind c_dot p - (rfind c_slash p + 1)))) eqn:Hscan.
  2:{ inversion H; subst. rewrite app_nil_r. auto. }
  inversion H; subst; clear H. unfold slice_to, slice_from.
  split; [symmetry; apply take_drop|].
  right.
  destruct (rfind_spec c_dot p) as [[Hd _] | (k & Hk & Hd & Hl & Hnd)].
  { exfalso. destruct (rfind_spec c_slash p) as [[Hs _] | (j & _ & Hs & _)]; lia. }
  rewrite Hd in *. rewrite Nat2Z.id.
  exists (drop (S k) p). split.
  { erewrite drop_S by exact Hl. reflexivity. }
  split; [exact Hnd|]. split.
  - destruct (rfind_spec c_slash p) as [[_ Hn] | (j & _ & Hs & _ & Hn)].
    + intros Hin. apply Hn. apply list_elem_of_lookup in Hin as [i Hi].
      rewrite lookup_drop in Hi. eapply list_elem_of_lookup_2. exact Hi.
    + intros Hin. apply Hn. apply list_elem_of_lookup in Hin as [i Hi].
      rewrite lookup_drop in Hi. apply list_elem_of_lookup.
      exists (S k + i - S j)%nat. rewrite lookup_drop.
      replace (S j + (S k + i - S j))%nat with (S k + i)%nat by lia. exact Hi.
  - intros Ht. apply (f_equal length) in Ht. rewrite length_take in Ht.
    simpl in Ht. assert (k = 0%nat) by lia. subst k.
    (* the scan found a character other than a dot before index 0 *)
    assert (Hs : rfind c_slash p = (-1)%Z)
      by (destruct (rfind_spec c_slash p) as [[Hs _] | (j & _ & Hs & _)]; lia).
    rewrite Hs in Hscan.
    simpl in Hscan. discriminate.
Qed.


(** ** Tokens *)

Lemma hexdigit_is_hex (n : N) : n < 16 -> is_hex_char (hexdigit n) = true.
Proof.
  intros H. unfold hexdigit, is_hex_char.
  destruct (N.ltb_spec n 10).
  - replace (48 <=? 48 + n) with true by (symmetry; apply N.leb_le; lia).
    replace (48 + n <=? 57) with true by (symmetry; apply N.leb_le; lia).
    reflexivity.
  - replace (97 <=? 87 + n) with true by (symmetry; apply N.leb_le; lia).
    replace (87 + n <=? 102) with true by (symmetry; apply N.leb_le; lia).
    apply orb_true_r.
Qed.

Lemma hexlify_length (bs : bytes) : length (hexlify bs) = (2 * length bs)%nat.
Proof. induction bs as [|b bs IH]; simpl; [reflexivity | rewrite IH; lia]. Qed.

Lemma hexlify_hex (bs : bytes) : forallb is_hex_char (hexlify bs) = true.
Proof.
  induction bs as [|b bs IH]; simpl; [reflexivity|].
  pose proof (Byte.to_N_bounded b) as Hb.
  rewrite !hexdigit_is_hex, IH; [reflexivity | |].
  - apply N.mod_lt. lia.
  - apply N.Div0.div_lt_upper_bound. lia.
Qed.

Lemma hexlify_token (bs : bytes) : is_hex_token (length bs) (hexlify bs).
Proof. split; [apply hexlify_length | apply hexlify_hex]. Qed.

Lemma hex_char_plain (c : char) :
  is_hex_char c = true -> c <> c_dot /\ c <> c_slash.
Proof.
  unfold is_hex_char, c_dot, c_slash. intros H.
  apply orb_true_iff in H as [H|H]; apply andb_true_iff in H as [H1 H2];
    apply N.leb_le in H1; apply N.leb_le in H2; lia.
Qed.

Lemma hex_token_plain (n : nat) (tok : str) :
  is_hex_token n tok -> (c_dot ∉ tok) /\ (c_slash ∉ tok).
Proof.
  intros [_ H]. rewrite forallb_forall in H.
  split; intros Hin; apply list_elem_of_In, H, hex_char_plain in Hin;
    destruct Hin; congruence.
Qed.

Lemma hex_token_head (n : nat) (tok : str) :
  is_hex_token (S n) tok ->
  exists c rest, tok = c :: rest /\ c <> c_dot /\ c <> c_slash.
Proof.
  intros [Hl H]. destruct tok as [|c rest]; [simpl in Hl; lia|].
  exists c, rest. split; [reflexivity|]. simpl in H.
  apply andb_true_iff in H as [H _]. apply hex_char_plain, H.
Qed.

Lemma next_token_hex (w : World) : is_hex_token 10 (next_token w).
Proof.
  unfold next_token.
  pose proof (hexlify_token (map (urandom w) (seq (drawn w) 10))) as H.
  rewrite length_map, length_seq in H. exact H.
Qed.

Lemma token_hex_run (w : World) :
  token_hex 10 w = (Ok (next_token w), set_drawn (drawn w + 10)%nat w).
Proof. reflexivity. Qed.

Lemma split_slash_plain (s : str) : c_slash ∉ s -> split_slash s = [s].
Proof.
  induction s as [|c s IH]; intros Hn; simpl; [reflexivity|].
  apply not_elem_of_cons in Hn as [Hc Hs].
  destruct (N.eqb_spec c c_slash) as [->|_]; [congruence|].
  rewrite (IH Hs). reflexivity.
Qed.

(** Joining a directory with a name that has no separator, is not empty
    and does not start with a dot appends one component. *)
Lemma joinpath_plain (base : Path) (c : char) (rest : str) :
  c <> c_dot -> c <> c_slash -> c_slash ∉ rest ->
  joinpath base (c :: rest) = descend base [c :: rest].
Proof.
  intros Hd Hs Hr. unfold joinpath, descend, parse_parts. simpl starts_with_slash.
  destruct (N.eqb_spec c c_slash) as [->|_]; [congruence|].
  rewrite split_slash_plain by (apply not_elem_of_cons; auto).
  simpl. unfold keep_part, str_eqb.
  rewrite !bool_decide_eq_false_2 by congruence. reflexivity.
Qed.

(** The generated name is the token followed by the extension of the
    declared name; nothing else of the declared name enters it. *)
Lemma target_filename_eq (tok filename : str) :
  target_filename tok filename
  = tok ++ (splitext filename).2.
Proof. unfold target_filename. destruct (splitext filename). reflexivity. Qed.

Lemma ext_no_slash (p : str) : c_slash ∉ (splitext p).2.
Proof.
  destruct (splitext p) as [stem ext] eqn:H.
  apply splitext_shape in H as [_ [-> | (e & -> & _ & He & _)]]; simpl.
  - apply not_elem_of_nil.
  - apply not_elem_of_cons. split; [discriminate | exact He].
Qed.

Lemma joinpath_target (base : Path) (tok filename : str) :
  is_hex_token 10 tok ->
  joinpath base (target_filename tok filename)
  = descend base [target_filename tok filename].
Proof.
  intros Ht. rewrite target_filename_eq.
  destruct (hex_token_head _ _ Ht) as (c & rest & -> & Hd & Hs).
  apply hex_token_plain in Ht as [_ Hsl].
  apply not_elem_of_cons in Hsl as [_ Hsl].
  simpl. apply joinpath_plain; [exact Hd | exact Hs |].
  rewrite not_elem_of_app. split; [exact Hsl | apply ext_no_slash].
Qed.


(** ** The answer to the overwrite prompt *)

Section Upper.

(** No code point above the ASCII range has an empty upper-case form or
    upper-cases to the single letter [Y]. *)
Hypothesis uc_upper_not_Y :
  forall c, 128 <= c -> uc_upper c <> [] /\ uc_upper c <> py "Y".

Lemma upper_char_nonempty (c : char) : upper_char uc_upper c <> [].
Proof.
  unfold upper_char.
  destruct ((97 <=? c) && (c <=? 122)); [discriminate|].
  destruct (N.ltb_spec c 128); [discriminate|].
  apply uc_upper_not_Y; assumption.
Qed.

Lemma upper_char_Y (c : char) :
  upper_char uc_upper c = py "Y" -> c = 89 \/ c = 121.
Proof.
  unfold upper_char. change (py "Y") with [89].
  destruct ((97 <=? c) && (c <=? 122)) eqn:Hlow.
  - intros H. injection H as H. apply andb_true_iff in Hlow as [H1 H2].
    apply N.leb_le in H1. right. lia.
  - destruct (N.ltb_spec c 128) as [_|Hge].
    + intros H. injection H as H. left. exact H.
    + intros H. exfalso. apply (uc_upper_not_Y c Hge). exact H.
Qed.

(** The comparison of line 32 holds for the answers [Y] and [y] and for
    no other. *)
Lemma upper_is_Y (s : str) :
  str_eqb (upper uc_upper s) (py "Y") = true <-> s = py "Y" \/ s = py "y".
Proof.
  unfold str_eqb. rewrite bool_decide_eq_true. split.
  - destruct s as [|c s]; [discriminate|]. unfold upper. simpl.
    intros H. pose proof (upper_char_nonempty c) as Hc.
    destruct (upper_char uc_upper c) as [|u us] eqn:Hu; [congruence|].
    change (py "Y") with [89] in *. simpl in H. injection H as -> Hrest.
    apply app_eq_nil in Hrest as [-> Hs].
    destruct s as [|c' s'].
    + apply upper_char_Y in Hu as [-> | ->]; [left | right]; reflexivity.
    + simpl in Hs. apply app_eq_nil in Hs as [Hs _].
      exfalso. exact (upper_char_nonempty c' Hs).
  - intros [-> | ->]; reflexivity.
Qed.

End Upper.

(** ** One attachment *)

Lemma extract_one_skip (basepath : Path) (part : MessagePart) (w : World) :
  get_filename part = None \/ get_filename part = Some [] ->
  extract_one basepath part w = (Ok tt, w).
Proof. unfold extract_one. intros [-> | ->]; reflexivity. Qed.

(** The loop body on an attachment that declares the name [F], with the
    token and the target path made explicit. *)
Lemma extract_one_unfold (basepath : Path) (part : MessagePart) (F : str)
    (w : World) :
  get_filename part = Some F -> F <> [] ->
  let n := generated_name w F in
  let target := descend basepath [n] in
  let w1 := emit (EPrint (py ">> Attachment found: " ++ n))
                 (set_drawn (drawn w + 10)%nat w) in
  extract_one basepath part w =
    match get_payload_decode part with
    | Raise e => (Raise e, w1)
    | Ok payload =>
        if bool_decide (is_Some (fs w !! resolve (cwd w) target)) then
          match stdin w with
          | [] => (Raise EOFError, emit (EInput (overwrite_prompt n) None) w1)
          | answer :: rest =>
              let w2 := emit (EInput (overwrite_prompt n) (Some answer))
                             (set_stdin rest w1) in
              if accepts answer
              then save_attachment target payload w2
              else (Ok tt, emit (EPrint (py ">> Skipping...")) w2)
          end
        else (mkdir_exist_ok basepath >> save_attachment target payload) w1
    end.
Proof.
  intros HF Hne n target w1. unfold extract_one. rewrite HF.
  destruct F as [|c F']; [congruence|].
  unfold bind at 1. rewrite token_hex_run.
  rewrite (joinpath_target _ _ _ (next_token_hex w)).
  rewrite target_filename_eq.
  fold (generated_name w (c :: F')). fold n. fold target.
  unfold bind at 1. unfold print at 1. fold w1.
  unfold bind at 1. unfold lift at 1.
  destruct (get_payload_decode part) as [payload|e]; [|reflexivity].
  unfold bind at 1. unfold path_exists at 1.
  change (fs w1) with (fs w). change (cwd w1) with (cwd w).
  destruct (bool_decide (is_Some (fs w !! resolve (cwd w) target))); [|reflexivity].
  unfold bind at 1. unfold input at 1. change (stdin w1) with (stdin w).
  destruct (stdin w) as [|answer rest]; [reflexivity|].
  unfold accepts. destruct (str_eqb (upper uc_upper answer) (py "Y")); reflexivity.
Qed.

(** ** Runs and their events *)

Lemma replay_app (e1 e2 : list event) (f : gmap (list str) node) :
  replay (e1 ++ e2) f = replay e2 (replay e1 f).
Proof. unfold replay. apply fold_left_app. Qed.

Lemma delta_refl (w : World) : delta w w [].
Proof. unfold delta. rewrite app_nil_r. auto. Qed.

Lemma delta_trans (w w1 w2 : World) (e1 e2 : list event) :
  delta w w1 e1 -> delta w1 w2 e2 -> delta w w2 (e1 ++ e2).
Proof.
  intros (L1 & F1 & C1) (L2 & F2 & C2). unfold delta.
  rewrite L2, L1, F2, F1, C2, C1, replay_app, app_assoc. auto.
Qed.

Lemma delta_print (w : World) (line : str) :
  delta w (emit (EPrint line) w) [EPrint line].
Proof. unfold delta. auto. Qed.

Lemma delta_input (w : World) (prompt : str) (answer : option str) (i : list str) :
  delta w (emit (EInput prompt answer) (set_stdin i w)) [EInput prompt answer].
Proof. unfold delta. auto. Qed.

Lemma delta_drawn (w : World) (n : nat) : delta w (set_drawn n w) [].
Proof. unfold delta. simpl. rewrite app_nil_r. auto. Qed.

(** [save_attachment] either cannot open the file, and changes nothing, or
    leaves the world [saved]. *)
Lemma save_attachment_fail (file : Path) (payload : option bytes) (w : World) :
  fs w !! resolve (cwd w) file = Some Dir
  \/ fs w !! parent (resolve (cwd w) file) <> Some Dir ->
  exists e, save_attachment file payload w = (Raise e, w).
Proof.
  intros H. unfold save_attachment, bind, open_wb.
  destruct (fs w !! resolve (cwd w) file) as [[c|]|] eqn:Ha;
    destruct (fs w !! parent (resolve (cwd w) file)) as [[c'|]|] eqn:Hp;
    try (eexists; reflexivity); destruct H; congruence.
Qed.

Lemma save_attachment_ok (file : Path) (payload : option bytes) (w : World) :
  fs w !! resolve (cwd w) file <> Some Dir ->
  fs w !! parent (resolve (cwd w) file) = Some Dir ->
  save_attachment file payload w
  = (match payload with Some _ => Ok tt | None => Raise TypeError end,
     saved file payload w).
Proof.
  intros Ha Hp. unfold save_attachment, saved, bind, open_wb. rewrite Hp.
  assert (Hopen :
    match fs w !! resolve (cwd w) file with
    | Some Dir => (Raise IsADirectoryError, w)
    | _ => (Ok tt, emit (ETruncate (resolve (cwd w) file))
                    (set_fs (<[resolve (cwd w) file := File []]> (fs w)) w))
    end = (Ok tt, emit (ETruncate (resolve (cwd w) file))
                    (set_fs (<[resolve (cwd w) file := File []]> (fs w)) w))).
  { destruct (fs w !! resolve (cwd w) file) as [[c|]|]; congruence. }
  rewrite Hopen. unfold print, write. simpl.
  destruct payload as [data|]; [|reflexivity].
  rewrite lookup_insert_eq. reflexivity.
Qed.

Lemma save_attachment_cases (file : Path) (payload : option bytes) (w : World) :
  (exists e, save_attachment file payload w = (Raise e, w))
  \/ save_attachment file payload w
     = (match payload with Some _ => Ok tt | None => Raise TypeError end,
        saved file payload w).
Proof.
  destruct (fs w !! resolve (cwd w) file) as [[c|]|] eqn:Ha;
    destruct (fs w !! parent (resolve (cwd w) file)) as [[c'|]|] eqn:Hp;
    try (right; apply save_attachment_ok; congruence);
    left; apply save_attachment_fail; rewrite ?Ha, ?Hp; auto;
    right; congruence.
Qed.

Lemma saved_delta (file : Path) (payload : option bytes) (w : World) :
  delta w (saved file payload w)
        (saved_events (resolve (cwd w) file) file payload).
Proof.
  unfold delta, saved, saved_events.
  destruct payload as [data|]; simpl.
  - rewrite lookup_insert_eq, <- !app_assoc. auto.
  - rewrite <- !app_assoc. auto.
Qed.

Lemma saved_fs (file : Path) (payload : option bytes) (w : World) :
  fs (saved file payload w)
  = <[resolve (cwd w) file := File (default [] payload)]> (fs w).
Proof.
  unfold saved. destruct payload as [data|]; simpl; [|reflexivity].
  apply insert_insert_eq.
Qed.


Lemma resolve_descend (here : list str) (p : Path) (rel : list str) :
  resolve here (descend p rel) = resolve here p ++ rel.
Proof.
  unfold resolve, descend. simpl.
  destruct (anchored p); [reflexivity | apply app_assoc].
Qed.

Lemma parent_snoc (d : list str) (n : str) : parent (d ++ [n]) = d.
Proof. apply removelast_last. Qed.

Lemma snoc_ne (d : list str) (n : str) : d ++ [n] <> d.
Proof.
  intros H. apply (f_equal length) in H. rewrite length_app in H. simpl in H. lia.
Qed.

(** The branch of the loop body taken when the target does not exist:
    [mkdir] fails and nothing changes, or the file is written into the
    directory, which was there or has just been created. *)
Lemma fresh_branch_cases (basepath : Path) (n : str) (payload : option bytes)
    (w : World) :
  let d := resolve (cwd w) basepath in
  let target := descend basepath [n] in
  let m := (mkdir_exist_ok basepath >> save_attachment target payload) w in
  let r := match payload with Some _ => Ok tt | None => Raise TypeError end in
  fs w !! (d ++ [n]) = None ->
  (exists e, m = (Raise e, w))
  \/ (fs w !! d = Some Dir /\ m = (r, saved target payload w))
  \/ (fs w !! d = None /\ m = (r, saved target payload (made basepath w))).
Proof.
  intros d target m r Hfresh. subst m. unfold bind, mkdir_exist_ok. fold d.
  destruct (fs w !! d) as [[c|]|] eqn:Hd.
  - left. eexists. reflexivity.
  - right. left. split; [reflexivity|]. subst r.
    apply save_attachment_ok; unfold target; rewrite resolve_descend; fold d.
    + rewrite Hfresh. discriminate.
    + rewrite parent_snoc. exact Hd.
  - destruct (fs w !! parent d) as [[c|]|] eqn:Hp;
      try (left; eexists; reflexivity).
    right. right. split; [reflexivity|]. fold (made basepath w). subst r.
    apply save_attachment_ok; unfold target; rewrite resolve_descend;
      change (cwd (made basepath w)) with (cwd w); fold d;
      change (fs (made basepath w)) with (<[d := Dir]> (fs w)).
    + rewrite lookup_insert_ne by (apply not_eq_sym, snoc_ne).
      rewrite Hfresh. discriminate.
    + rewrite parent_snoc. apply lookup_insert_eq.
Qed.

Lemma made_delta (p : Path) (w : World) :
  delta w (made p w) [ECreateDir (resolve (cwd w) p)].
Proof. unfold delta, made. auto. Qed.

Lemma dirs_used_app (e1 e2 : list event) :
  dirs_used e1 -> dirs_used e2 -> dirs_used (e1 ++ e2).
Proof.
  induction e1 as [|e e1 IH]; intros H1 H2; [exact H2|].
  destruct e; simpl in *; try (apply IH; assumption).
  destruct H1 as [Hh Ht]. split; [|apply IH; assumption].
  destruct e1 as [|[] e1']; simpl; try contradiction. exact Hh.
Qed.

Lemma trace_ok_nil (d : list str) (ps : list MessagePart) : trace_ok d ps [].
Proof. split; [constructor | exact I]. Qed.

Lemma trace_ok_app (d : list str) (ps : list MessagePart) (e1 e2 : list event) :
  trace_ok d ps e1 -> trace_ok d ps e2 -> trace_ok d ps (e1 ++ e2).
Proof.
  intros [F1 D1] [F2 D2]. split;
    [apply Forall_app; auto | apply dirs_used_app; auto].
Qed.

Lemma saved_events_ok (d : list str) (ps : list MessagePart) (F n : str)
    (file : Path) (payload : option bytes) :
  declares ps F -> fresh_name F n ->
  Forall (event_ok d ps) (saved_events (d ++ [n]) file payload).
Proof.
  intros HF Hn. unfold saved_events.
  assert (Hline : saving_line file <> py "Done.") by discriminate.
  destruct payload; repeat constructor; simpl; eauto.
Qed.

Lemma saved_events_dirs (a : list str) (file : Path) (payload : option bytes) :
  dirs_used (saved_events a file payload).
Proof. destruct payload; exact I. Qed.

Lemma found_line_not_done (n : str) : py ">> Attachment found: " ++ n <> py "Done.".
Proof. discriminate. Qed.

(** The events of one pass through the loop body. *)
Lemma extract_one_trace (basepath : Path) (ps : list MessagePart)
    (part : MessagePart) (w : World) :
  In part ps -> is_attachment part = true ->
  exists evs, delta w (extract_one basepath part w).2 evs
              /\ trace_ok (resolve (cwd w) basepath) ps evs.
Proof.
  intros Hin Hatt.
  destruct (get_filename part) as [F|] eqn:HF.
  2:{ rewrite extract_one_skip by auto. exists []. split;
      [apply delta_refl | apply trace_ok_nil]. }
  destruct (decide (F = [])) as [->|Hne].
  { rewrite extract_one_skip by auto. exists []. split;
      [apply delta_refl | apply trace_ok_nil]. }
  rewrite (extract_one_unfold basepath part F w HF Hne). cbv zeta.
  set (n := generated_name w F). set (target := descend basepath [n]).
  set (found := EPrint (py ">> Attachment found: " ++ n)).
  set (w1 := emit found (set_drawn (drawn w + 10)%nat w)).
  set (d := resolve (cwd w) basepath).
  assert (Hdecl : declares ps F) by (exists part; auto).
  assert (Hfresh : fresh_name F n)
    by (exists (next_token w); split; [apply next_token_hex | reflexivity]).
  assert (Hw1 : delta w w1 [found]) by (unfold delta; auto).
  assert (Hfound : trace_ok d ps [found]).
  { split; [|exact I]. repeat constructor. apply found_line_not_done. }
  assert (Hres : resolve (cwd w) target = d ++ [n]) by apply resolve_descend.
  destruct (get_payload_decode part) as [payload|e]; [|exists [found]; auto].
  destruct (bool_decide (is_Some (fs w !! resolve (cwd w) target))) eqn:Hex.
  - (* the target exists: the user is asked *)
    destruct (stdin w) as [|answer rest].
    { exists ([found] ++ [EInput (overwrite_prompt n) None]). split.
      - eapply delta_trans; [exact Hw1|]. unfold delta; auto.
      - apply trace_ok_app; [exact Hfound|]. split; [|exact I].
        repeat constructor. simpl. eauto. }
    set (asked := EInput (overwrite_prompt n) (Some answer)).
    set (w2 := emit asked (set_stdin rest w1)).
    assert (Hw2 : delta w w2 ([found] ++ [asked])).
    { eapply delta_trans; [exact Hw1 | unfold delta; auto]. }
    assert (Hasked : trace_ok d ps ([found] ++ [asked])).
    { apply trace_ok_app; [exact Hfound|]. split; [|exact I].
      repeat constructor. simpl. eauto. }
    destruct (accepts answer).
    + destruct (save_attachment_cases target payload w2) as [[e ->] | ->].
      * exists ([found] ++ [asked]). auto.
      * exists (([found] ++ [asked])
                  ++ saved_events (resolve (cwd w2) target) target payload).
        split; [eapply delta_trans; [exact Hw2 | apply saved_delta]|].
        apply trace_ok_app; [exact Hasked|].
        change (cwd w2) with (cwd w). rewrite Hres.
        split; [eapply saved_events_ok; eauto | apply saved_events_dirs].
    + exists (([found] ++ [asked]) ++ [EPrint (py ">> Skipping...")]). split.
      * eapply delta_trans; [exact Hw2 | apply delta_print].
      * apply trace_ok_app; [exact Hasked|]. split; [|exact I].
        repeat constructor. discriminate.
  - (* the target does not exist: the directory is ensured, the file written *)
    apply bool_decide_eq_false in Hex. rewrite Hres in Hex.
    assert (Hnone : fs w1 !! (resolve (cwd w1) basepath ++ [n]) = None).
    { change (fs w1) with (fs w). change (cwd w1) with (cwd w). fold d.
      destruct (fs w !! (d ++ [n])) eqn:E; [exfalso; apply Hex; eauto | reflexivity]. }
    pose proof (fresh_branch_cases basepath n payload w1 Hnone) as Hc.
    cbv zeta in Hc. fold target in Hc.
    destruct Hc as [[e ->] | [[_ ->] | [_ ->]]].
    + exists [found]. auto.
    + exists ([found] ++ saved_events (resolve (cwd w1) target) target payload).
      split; [eapply delta_trans; [exact Hw1 | apply saved_delta]|].
      apply trace_ok_app; [exact Hfound|].
      change (cwd w1) with (cwd w). rewrite Hres.
      split; [eapply saved_events_ok; eauto | apply saved_events_dirs].
    + exists ([found] ++ [ECreateDir (resolve (cwd w1) basepath)]
                ++ saved_events (resolve (cwd (made basepath w1)) target)
                                target payload).
      split.
      * eapply delta_trans; [exact Hw1|].
        eapply delta_trans; [apply made_delta | apply saved_delta].
      * apply trace_ok_app; [exact Hfound|].
        change (cwd (made basepath w1)) with (cwd w).
        change (cwd w1) with (cwd w). rewrite Hres. fold d. split.
        -- constructor; [reflexivity | eapply saved_events_ok; eauto].
        -- simpl. rewrite parent_snoc. repeat split.
           ++ intros Hnil. apply app_eq_nil in Hnil as [_ Hnil]. discriminate.
           ++ destruct payload; exact I.
Qed.

(** A loop whose body only adds events satisfying a property closed under
    concatenation adds such events. *)
Lemma for__delta {A} (Q : list event -> Prop) (body : A -> M unit)
    (l : list A) (here : list str) :
  Q [] -> (forall a b, Q a -> Q b -> Q (a ++ b)) ->
  (forall x w, In x l -> cwd w = here ->
     exists evs, delta w (body x w).2 evs /\ Q evs) ->
  forall w, cwd w = here -> exists evs, delta w (for_ l body w).2 evs /\ Q evs.
Proof.
  intros Qnil Qapp. induction l as [|x l IH]; intros Hbody w Hw; simpl.
  - exists []. split; [apply delta_refl | exact Qnil].
  - destruct (Hbody x w (or_introl eq_refl) Hw) as (e1 & D1 & Q1).
    unfold bind. destruct (body x w) as [[u|e] w1]; simpl in D1.
    + destruct (IH (fun y w' Hy => Hbody y w' (or_intror Hy)) w1) as (e2 & D2 & Q2).
      { destruct D1 as (_ & _ & ->). exact Hw. }
      exists (e1 ++ e2). split; [eapply delta_trans; eauto | auto].
    + exists e1. auto.
Qed.

Lemma extract_attachments_unfold (file destination : Path) (w : World) :
  let w1 := emit (EPrint (py "PROCESSING FILE " ++ dq ++ path_str file ++ dq)) w in
  extract_attachments file destination w =
    match fs w !! resolve (cwd w) file with
    | Some (File c) =>
        match message_from_file c with
        | Ok m =>
            match List.filter is_attachment (iter_attachments m) with
            | [] => (Ok tt, emit (EPrint (py ">> No attachments found.")) w1)
            | l => for_ l (extract_one destination) w1
            end
        | Raise e => (Raise e, w1)
        end
    | Some Dir => (Raise IsADirectoryError, w1)
    | None => (Raise FileNotFoundError, w1)
    end.
Proof.
  intros w1. unfold extract_attachments, bind at 1, print at 1. fold w1.
  unfold bind at 1, open_read. change (fs w1) with (fs w).
  change (cwd w1) with (cwd w).
  destruct (fs w !! resolve (cwd w) file) as [[c|]|]; try reflexivity.
  unfold bind, lift. destruct (message_from_file c) as [m|e]; [|reflexivity].
  destruct (List.filter is_attachment (iter_attachments m)); reflexivity.
Qed.

(** The events of the extraction of one message. *)
Lemma extract_attachments_trace (file destination : Path) (w : World) :
  exists evs,
    delta w (extract_attachments file destination w).2 evs
    /\ trace_ok (resolve (cwd w) destination) (parts_of file w) evs.
Proof.
  rewrite extract_attachments_unfold. cbv zeta.
  set (line := EPrint (py "PROCESSING FILE " ++ dq ++ path_str file ++ dq)).
  set (w1 := emit line w). set (d := resolve (cwd w) destination).
  assert (Hw1 : delta w w1 [line]) by apply delta_print.
  assert (Hline : forall ps, trace_ok d ps [line]).
  { intros ps. split; [|exact I]. repeat constructor. discriminate. }
  unfold parts_of, message_of.
  destruct (fs w !! resolve (cwd w) file) as [[c|]|];
    try solve [exists [line]; auto].
  destruct (message_from_file c) as [m|e].
  2:{ exists [line]. auto. }
  destruct (List.filter is_attachment (iter_attachments m)) as [|p l] eqn:Hfil.
  - exists ([line] ++ [EPrint (py ">> No attachments found.")]). split.
    + eapply delta_trans; [exact Hw1 | apply delta_print].
    + apply trace_ok_app; [apply Hline|]. split; [|exact I].
      repeat constructor. discriminate.
  - assert (Hloop : exists evs,
              delta w1 (for_ (p :: l) (extract_one destination) w1).2 evs
              /\ trace_ok d (iter_attachments m) evs).
    { apply (for__delta (trace_ok d (iter_attachments m))
               (extract_one destination) (p :: l) (cwd w)).
      - apply trace_ok_nil.
      - apply trace_ok_app.
      - intros x w' Hx Hcw. rewrite <- Hfil in Hx.
        apply filter_In in Hx as [Hin Hatt]. unfold d. rewrite <- Hcw.
        apply extract_one_trace; assumption.
      - reflexivity. }
    destruct Hloop as (evs & Hd & Hq).
    exists ([line] ++ evs). split; [eapply delta_trans; eauto|].
    apply trace_ok_app; [apply Hline | exact Hq].
Qed.

Lemma delta_events (w w' : World) (evs evs' : list event) :
  delta w w' evs -> log w' = log w ++ evs' -> evs' = evs.
Proof.
  intros (Hl & _) H. rewrite Hl in H. symmetry. eapply app_inv_head. exact H.
Qed.




(** ** The claims about one message *)






(** ** Declined overwrites *)












Section Upper_claims.

Hypothesis uc_upper_not_Y :
  forall c, 128 <= c -> uc_upper c <> [] /\ uc_upper c <> py "Y".

(** C3.  When the target of an attachment exists, the loop body shows the
    overwrite prompt and reads one line before anything else happens.  If
    the line is [Y] or [y] it goes on with [save_attachment] on the target,
    which for a target that is a regular file (in a directory) and a
    payload of bytes replaces the file's content by the payload; for every
    other line it prints that it skips the attachment and changes
    nothing. *)
Theorem C3_overwrite_only_on_Y (basepath : Path) (part : MessagePart)
    (F : str) (payload : option bytes) (w : World) (answer : str)
    (rest : list str) :
  get_filename part = Some F -> F <> [] ->
  get_payload_decode part = Ok payload ->
  is_Some (fs w !! (resolve (cwd w) basepath ++ [generated_name w F])) ->
  stdin w = answer :: rest ->
  let n := generated_name w F in
  let target := descend basepath [n] in
  let asked :=
    emit (EInput (overwrite_prompt n) (Some answer))
      (set_stdin rest
         (emit (EPrint (py ">> Attachment found: " ++ n))
            (set_drawn (drawn w + 10)%nat w))) in
  (answer = py "Y" \/ answer = py "y" ->
     extract_one basepath part w = save_attachment target payload asked)
  /\ (answer <> py "Y" -> answer <> py "y" ->
        extract_one basepath part w
        = (Ok tt, emit (EPrint (py ">> Skipping...")) asked))
  /\ (forall c data,
        answer = py "Y" \/ answer = py "y" ->
        fs w !! (resolve (cwd w) basepath ++ [n]) = Some (File c) ->
        fs w !! resolve (cwd w) basepath = Some Dir ->
        payload = Some data ->
        extract_one basepath part w
        = (Ok tt, saved target payload asked)
        /\ fs (saved target payload asked)
           = <[resolve (cwd w) basepath ++ [n] := File data]> (fs w)).
Proof.
  intros HF Hne Hpay Hex Hin n target asked.
  assert (Hstep : extract_one basepath part w
                  = if accepts answer
                    then save_attachment target payload asked
                    else (Ok tt, emit (EPrint (py ">> Skipping...")) asked)).
  { rewrite (extract_one_unfold basepath part F w HF Hne). cbv zeta.
    rewrite Hpay. fold n. fold target.
    replace (resolve (cwd w) target) with (resolve (cwd w) basepath ++ [n])
      by (symmetry; apply resolve_descend).
    rewrite bool_decide_eq_true_2 by exact Hex.
    rewrite Hin. reflexivity. }
  pose proof (upper_is_Y uc_upper_not_Y answer) as HY. fold (accepts answer) in HY.
  split; [|split].
  - intros Hyes. rewrite Hstep. apply HY in Hyes. rewrite Hyes. reflexivity.
  - intros H1 H2. rewrite Hstep.
    destruct (accepts answer); [|reflexivity].
    destruct HY as [HY _]. destruct (HY eq_refl); contradiction.
  - intros c data Hyes Hfile Hdir ->. rewrite Hstep.
    apply HY in Hyes. rewrite Hyes.
    assert (Hres : resolve (cwd asked) target = resolve (cwd w) basepath ++ [n])
      by apply resolve_descend.
    split.
    + apply (save_attachment_ok target (Some data) asked).
      * rewrite Hres. change (fs asked) with (fs w). rewrite Hfile. discriminate.
      * rewrite Hres, parent_snoc. exact Hdir.
    + rewrite saved_fs, Hres. reflexivity.
Qed.

End Upper_claims.

(** ** The command line *)

Lemma check_path_run (v : str) (w : World) :
  converted (check_path v) w = (Ok (Path_of v), w)
  \/ converted (check_path v) w = (Raise (SystemExit 2), w).
Proof.
  unfold converted, check_path, bind, is_dir.
  destruct (fs w !! resolve (cwd w) (Path_of v)) as [[c|]|]; auto.
Qed.

Lemma check_file_run (v : str) (w : World) :
  converted (check_file v) w = (Ok (Path_of v), w)
  \/ converted (check_file v) w = (Raise (SystemExit 2), w).
Proof.
  unfold converted, check_file, bind, is_file.
  destruct (fs w !! resolve (cwd w) (Path_of v)) as [[c|]|]; auto.
  simpl. destruct (str_eqb (suffix (Path_of v)) (py ".eml")); auto.
Qed.

Lemma check_files_run (vs : list str) (w : World) :
  mapM (fun v => converted (check_file v)) vs w = (Ok (map Path_of vs), w)
  \/ mapM (fun v => converted (check_file v)) vs w = (Raise (SystemExit 2), w).
Proof.
  induction vs as [|v vs IH]; simpl; [left; reflexivity|].
  unfold bind. destruct (check_file_run v w) as [-> | ->]; [|auto].
  destruct IH as [-> | ->]; auto.
Qed.

(** Parsing reads the disk and changes nothing; it ends with a namespace
    or leaves through [SystemExit]. *)
Lemma consume_run (args : list cli_arg) :
  forall ns ss sf w,
    (exists ns', consume args ns ss sf w = (Ok ns', w))
    \/ (exists code, consume args ns ss sf w = (Raise (SystemExit code), w)).
Proof.
  induction args as [|arg args IH]; intros ns ss sf w; simpl.
  - left. eexists. reflexivity.
  - destruct arg as [v| |vs|v|].
    + unfold bind. destruct (check_path_run v w) as [-> | ->];
        [|right; eexists; reflexivity].
      destruct sf; [right; eexists; reflexivity | apply IH].
    + apply IH.
    + destruct vs as [|v0 vs0]; [right; eexists; reflexivity|].
      unfold bind. destruct (check_files_run (v0 :: vs0) w) as [-> | ->];
        [|right; eexists; reflexivity].
      destruct ss; [right; eexists; reflexivity | apply IH].
    + unfold bind. destruct (check_path_run v w) as [-> | ->];
        [apply IH | right; eexists; reflexivity].
    + right. eexists. reflexivity.
Qed.



Lemma parse_arguments_run (argv : list cli_arg) (w : World) :
  (exists args, parse_arguments argv w = (Ok args, w))
  \/ (exists code, parse_arguments argv w = (Raise (SystemExit code), w)).
Proof. unfold parse_arguments. apply consume_run. Qed.

Lemma get_eml_files_from_run (path : Path) (recursively : bool) (w : World) :
  exists files, get_eml_files_from path recursively w = (Ok files, w).
Proof.
  unfold get_eml_files_from, rglob_eml, glob_eml.
  destruct recursively; [eexists; reflexivity|].
  destruct (is_dir_at w (resolve (cwd w) path)); eexists; reflexivity.
Qed.

Lemma resolve_files_run (args : Namespace) (w : World) :
  exists files, resolve_files args w = (Ok files, w).
Proof.
  unfold resolve_files.
  destruct (ns_files args) as [[|f fl]|];
    try apply get_eml_files_from_run. eexists. reflexivity.
Qed.


(** ** The batch *)

Lemma for__app {A} (body : A -> M unit) (l1 l2 : list A) (w : World) :
  for_ (l1 ++ l2) body w
  = match for_ l1 body w with
    | (Ok _, w1) => for_ l2 body w1
    | (Raise e, w1) => (Raise e, w1)
    end.
Proof.
  revert w. induction l1 as [|x l1 IH]; intros w; simpl; [reflexivity|].
  unfold bind. destruct (body x w) as [[u|e] w1]; [apply IH | reflexivity].
Qed.

Lemma event_ok_not_done (d : list str) (ps : list MessagePart) (e : event) :
  event_ok d ps e -> not_done e.
Proof. destruct e; simpl; unfold not_done; congruence. Qed.

(** No extraction prints the closing line. *)
Lemma process_events (files : list Path) (destination : Path) (w : World) :
  exists evs, delta w (process files destination w).2 evs
              /\ Forall not_done evs.
Proof.
  unfold process.
  apply (for__delta (Forall not_done)
           (fun file => extract_attachments file destination) files (cwd w)).
  - constructor.
  - intros a b Ha Hb. apply Forall_app. auto.
  - intros file w' _ _.
    destruct (extract_attachments_trace file destination w')
      as (evs & Hd & Hok & _).
    exists evs. split; [exact Hd|].
    eapply List.Forall_impl; [intros e; apply event_ok_not_done | exact Hok].
  - reflexivity.
Qed.

(** [main] after a successful parse. *)
Lemma main_unfold (argv : list cli_arg) (w : World) (args : Namespace)
    (files : list Path) :
  parse_arguments argv w = (Ok args, w) ->
  resolve_files args w = (Ok files, w) ->
  let w0 := match files with
            | [] => emit (EPrint (py "No EML files found!")) w
            | _ => w
            end in
  main argv w
  = match process files (ns_destination args) w0 with
    | (Ok _, w1) => (Ok tt, emit (EPrint (py "Done.")) w1)
    | (Raise e, w1) => (Raise e, w1)
    end.
Proof.
  intros Hp Hf w0. unfold main, bind. rewrite Hp, Hf. fold (process files (ns_destination args)).
  destruct files; reflexivity.
Qed.

(** C7.  When the extraction of one file of the batch raises, [main] ends
    with that exception in the very world the failing extraction left:
    the files after it are not processed, nothing is tried again, the
    closing line is not printed.  In every run the closing line [Done.] is
    among the lines printed exactly when [main] returns normally, and then
    the loop over all the files has returned normally. *)
Theorem C7_first_exception_ends_the_run (argv : list cli_arg) (w : World)
    (args : Namespace) (pre post : list Path) (file : Path) (w3 w4 : World)
    (e : exn) :
  parse_arguments argv w = (Ok args, w) ->
  resolve_files args w = (Ok (pre ++ file :: post), w) ->
  process pre (ns_destination args) w = (Ok tt, w3) ->
  extract_attachments file (ns_destination args) w3 = (Raise e, w4) ->
  main argv w = (Raise e, w4)
  /\ (forall evs, log (main argv w).2 = log w ++ evs ->
        ~ In (EPrint (py "Done.")) evs)
  /\ (forall argv' w' evs, log (main argv' w').2 = log w' ++ evs ->
        (In (EPrint (py "Done.")) evs <-> (main argv' w').1 = Ok tt)).
Proof.
  intros Hp Hf Hpre Hfile.
  assert (Hdone : forall argv' w' evs, log (main argv' w').2 = log w' ++ evs ->
            (In (EPrint (py "Done.")) evs <-> (main argv' w').1 = Ok tt)).
  { clear. intros argv w evs Hlog.
    destruct (parse_arguments_run argv w) as [[args Hp] | [code Hp]].
    - destruct (resolve_files_run args w) as [files Hf].
      rewrite (main_unfold argv w args files Hp Hf) in *. cbv zeta in *.
      set (w0 := match files with
                 | [] => emit (EPrint (py "No EML files found!")) w
                 | _ => w
                 end) in *.
      assert (H0 : exists e0, delta w w0 e0 /\ Forall not_done e0).
      { destruct files; [|exists []; split; [apply delta_refl | constructor]].
        eexists. split; [apply delta_print|]. repeat constructor. discriminate. }
      destruct H0 as (e0 & D0 & N0).
      destruct (process_events files (ns_destination args) w0) as (e1 & D1 & N1).
      destruct (process files (ns_destination args) w0) as [[u|e] w1];
        simpl in D1, Hlog |- *.
      + pose proof (delta_trans _ _ _ _ _ (delta_trans _ _ _ _ _ D0 D1)
                      (delta_print w1 (py "Done."))) as D.
        rewrite (delta_events _ _ _ _ D Hlog).
        split; [reflexivity|]. intros _. apply in_or_app. right. left. reflexivity.
      + pose proof (delta_trans _ _ _ _ _ D0 D1) as D.
        rewrite (delta_events _ _ _ _ D Hlog).
        split; [|discriminate]. intros Hin. exfalso.
        apply in_app_or in Hin as [Hin | Hin];
          [rewrite List.Forall_forall in N0; exact (N0 _ Hin eq_refl)
          |rewrite List.Forall_forall in N1; exact (N1 _ Hin eq_refl)].
    - unfold main, bind in *. rewrite Hp in *. simpl in *.
      assert (evs = []) as ->.
      { rewrite <- (app_nil_r (log w)) in Hlog at 1.
        apply app_inv_head in Hlog. auto. }
      split; [intros [] | discriminate]. }
  assert (Hmain : main argv w = (Raise e, w4)).
  { rewrite (main_unfold argv w args _ Hp Hf). cbv zeta.
    replace (match pre ++ file :: post with
             | [] => emit (EPrint (py "No EML files found!")) w
             | _ => w
             end) with w by (destruct pre; reflexivity).
    unfold process in *. rewrite for__app, Hpre. simpl. unfold bind.
    rewrite Hfile. reflexivity. }
  split; [exact Hmain|]. split; [|exact Hdone].
  intros evs Hlog Hin. apply (Hdone argv w evs Hlog) in Hin.
  rewrite Hmain in Hin. discriminate.
Qed.

(** ** Discovery *)

Lemma ends_with_spec (s t : str) :
  ends_with s t = true <-> exists stem, s = stem ++ t.
Proof.
  unfold ends_with, str_eqb. rewrite andb_true_iff, bool_decide_eq_true. split.
  - intros [Hlen Hd]. apply Nat.leb_le in Hlen.
    exists (take (length s - length t) s). rewrite <- Hd at 2.
    symmetry. apply take_drop.
  - intros [stem ->]. rewrite length_app. split.
    + apply Nat.leb_le. lia.
    + replace (length stem + length t - length t)%nat with (length stem) by lia.
      apply drop_app_length.
Qed.

Lemma scandir_spec (w : World) (a : list str) (n : str) :
  In n (scandir w a) <-> is_Some (fs w !! (a ++ [n])).
Proof.
  unfold scandir. rewrite <- list_elem_of_In, list_elem_of_omap. split.
  - intros ([k nd] & Hin & Hf). apply elem_of_map_to_list in Hin. simpl in Hf.
    destruct (bool_decide (k <> [] /\ parent k = a)) eqn:Hb; [|discriminate].
    apply bool_decide_eq_true in Hb as [Hne Hp]. injection Hf as <-.
    rewrite <- Hp. unfold parent. rewrite <- app_removelast_last by exact Hne.
    eauto.
  - intros [nd Hnd]. exists (a ++ [n], nd). split.
    + apply elem_of_map_to_list. exact Hnd.
    + simpl. rewrite bool_decide_eq_true_2.
      * rewrite last_last. reflexivity.
      * split; [|apply parent_snoc].
        intros H. apply app_eq_nil in H as [_ H]. discriminate.
Qed.

Lemma glob_eml_spec (path : Path) (w : World) :
  exists l, glob_eml path w = (Ok l, w)
            /\ forall p, In p l <-> direct_match w path p.
Proof.
  unfold glob_eml, is_dir_at, direct_match.
  set (d := resolve (cwd w) path).
  destruct (fs w !! d) as [[c|]|] eqn:Hd.
  - exists []. split; [reflexivity|]. intros p. split; [intros []|].
    intros (n & stem & _ & _ & H & _). discriminate.
  - eexists. split; [reflexivity|]. intros p. rewrite in_map_iff. split.
    + intros (n & <- & Hn). apply filter_In in Hn as [Hs Hm].
      apply ends_with_spec in Hm as [stem Hstem].
      exists n, stem. repeat split; try assumption. apply scandir_spec, Hs.
    + intros (n & stem & -> & Hn & _ & He). exists n. split; [reflexivity|].
      apply filter_In. split; [apply scandir_spec, He|].
      apply ends_with_spec. eauto.
  - exists []. split; [reflexivity|]. intros p. split; [intros []|].
    intros (n & stem & _ & _ & H & _). discriminate.
Qed.

Lemma rglob_eml_spec (path : Path) (w : World) :
  exists l, rglob_eml path w = (Ok l, w)
            /\ forall p, In p l <-> subtree_match w path p.
Proof.
  unfold rglob_eml, subtree_match. set (d := resolve (cwd w) path).
  eexists. split; [reflexivity|]. intros p.
  rewrite <- list_elem_of_In, list_elem_of_omap. split.
  - intros ([k nd] & Hin & Hf). apply elem_of_map_to_list in Hin. simpl in Hf.
    destruct (bool_decide (take (length d) k = d)) eqn:H1; [|discriminate].
    destruct (bool_decide (drop (length d) k = [])) eqn:H2; [discriminate|].
    destruct (walk_ok w d (drop (length d) k)) eqn:H3; [|discriminate].
    destruct (fnmatch_eml (List.last (drop (length d) k) [])) eqn:H4;
      [|discriminate].
    simpl in Hf. injection Hf as <-.
    apply bool_decide_eq_true in H1. apply bool_decide_eq_false in H2.
    apply ends_with_spec in H4 as [stem H4].
    exists (drop (length d) k), stem. repeat split; try assumption.
    rewrite <- H1 at 1. rewrite take_drop. eauto.
  - intros (rel & stem & -> & Hne & Hl & Hw & [nd Hnd]).
    exists (d ++ rel, nd). split; [apply elem_of_map_to_list, Hnd|].
    simpl. rewrite drop_app_length, take_app_length.
    rewrite bool_decide_eq_true_2 by reflexivity.
    rewrite bool_decide_eq_false_2 by exact Hne.
    rewrite Hw. simpl.
    replace (fnmatch_eml (List.last rel [])) with true; [reflexivity|].
    symmetry. apply ends_with_spec. eauto.
Qed.

Lemma no_elements {A} (l : list A) : (forall x, ~ In x l) -> l = [].
Proof.
  destruct l as [|x l]; [reflexivity|]. intros H.
  exfalso. apply (H x). left. reflexivity.
Qed.


(** ** The folder-name sanitizer *)

Lemma underscore_legal : existsb (N.eqb 95) illegal_chars = false.
Proof. vm_compute. reflexivity. Qed.

Lemma lookup_map_Some {A B} (f : A -> B) (l : list A) (i : nat) (x : A) :
  l !! i = Some x -> map f l !! i = Some (f x).
Proof.
  revert i. induction l as [|y l IH]; intros [|i] H; simpl in *;
    try discriminate.
  - injection H as ->. reflexivity.
  - apply IH. exact H.
Qed.

(** X1.  [sanitize_foldername] keeps the length of the name, leaves every
    character outside the class as it is and in its place, returns a name
    with no character of the class, and applied twice gives what it gives
    applied once. *)
Theorem sanitize_foldername_clean (name : str) :
  length (sanitize_foldername name) = length name
  /\ (forall i c, name !! i = Some c -> illegal c = false ->
        sanitize_foldername name !! i = Some c)
  /\ (forall i c, name !! i = Some c -> illegal c = true ->
        sanitize_foldername name !! i = Some 95)
  /\ (forall c, In c (sanitize_foldername name) -> illegal c = false)
  /\ sanitize_foldername (sanitize_foldername name) = sanitize_foldername name.
Proof.
  unfold sanitize_foldername, illegal. split; [apply length_map|].
  split; [|split; [|split]].
  - intros i c Hi Hc.
    pose proof (lookup_map_Some
                  (fun c => if existsb (N.eqb c) illegal_chars then 95 else c)
                  name i c Hi) as H.
    cbv beta in H. rewrite Hc in H. exact H.
  - intros i c Hi Hc.
    pose proof (lookup_map_Some
                  (fun c => if existsb (N.eqb c) illegal_chars then 95 else c)
                  name i c Hi) as H.
    cbv beta in H. rewrite Hc in H. exact H.
  - intros c Hin. apply in_map_iff in Hin as (x & <- & _).
    destruct (existsb (N.eqb x) illegal_chars) eqn:E;
      [apply underscore_legal | exact E].
  - rewrite map_map. apply map_ext. intros x.
    destruct (existsb (N.eqb x) illegal_chars) eqn:E.
    + rewrite underscore_legal. reflexivity.
    + rewrite E. reflexivity.
Qed.

(** ** Saving *)



(** ** More on one attachment *)


(** X8.  When the target of an attachment exists and standard input is at
    its end, the loop body shows the prompt and raises [EOFError]: the
    disk is as it was and the prompt is the last thing logged. *)
Theorem extract_one_end_of_input (basepath : Path) (part : MessagePart)
    (F : str) (payload : option bytes) (w : World) :
  get_filename part = Some F -> F <> [] ->
  get_payload_decode part = Ok payload ->
  is_Some (fs w !! (resolve (cwd w) basepath ++ [generated_name w F])) ->
  stdin w = [] ->
  let r := extract_one basepath part w in
  r.1 = Raise EOFError
  /\ fs r.2 = fs w
  /\ log r.2
     = log w ++ [EPrint (py ">> Attachment found: " ++ generated_name w F);
                 EInput (overwrite_prompt (generated_name w F)) None].
Proof.
  intros HF Hne Hpay Hex Hin r. subst r.
  rewrite (extract_one_unfold basepath part F w HF Hne). cbv zeta.
  rewrite Hpay.
  replace (resolve (cwd w) (descend basepath [generated_name w F]))
    with (resolve (cwd w) basepath ++ [generated_name w F])
    by (symmetry; apply resolve_descend).
  rewrite bool_decide_eq_true_2 by exact Hex. rewrite Hin.
  cbn [fst snd]. split; [reflexivity|]. split; [reflexivity|].
  simpl. rewrite <- app_assoc. reflexivity.
Qed.

(** ** The validators *)

Lemma suffix_eml_name (p : Path) :
  suffix p = py ".eml" -> exists stem, stem <> [] /\ name p = stem ++ py ".eml".
Proof.
  unfold suffix. set (n := name p). set (i := rfind c_dot n).
  destruct ((0 <? i)%Z && (i <? Z.of_nat (length n) - 1)%Z) eqn:Hb;
    [|discriminate].
  apply andb_true_iff in Hb as [H0 H1].
  apply Z.ltb_lt in H0. apply Z.ltb_lt in H1.
  unfold slice_from. intros Hd. exists (take (Z.to_nat i) n). split.
  - intros Ht. apply (f_equal length) in Ht. rewrite length_take in Ht.
    simpl in Ht. lia.
  - rewrite <- Hd. symmetry. apply take_drop.
Qed.

(** X4.  [check_file] reads the disk and changes nothing.  It returns the
    path of its argument exactly when that path is a regular file whose
    suffix is [.eml], and then the file's name is a non-empty stem
    followed by [.eml]; in every other case it raises
    [ArgumentTypeError]. *)
Theorem check_file_accepts (arg_value : str) (w : World) :
  (check_file arg_value w).2 = w
  /\ ((check_file arg_value w).1 = Ok (Path_of arg_value)
      <-> (exists c, fs w !! resolve (cwd w) (Path_of arg_value) = Some (File c))
          /\ suffix (Path_of arg_value) = py ".eml")
  /\ (forall p, (check_file arg_value w).1 = Ok p ->
        p = Path_of arg_value /\ valid_eml w p)
  /\ ((check_file arg_value w).1 = Ok (Path_of arg_value)
      \/ exists msg, (check_file arg_value w).1 = Raise (ArgumentTypeError msg)).
Proof.
  unfold check_file, bind, is_file, valid_eml.
  set (p := Path_of arg_value).
  destruct (fs w !! resolve (cwd w) p) as [[c|]|] eqn:Hf; simpl.
  - unfold str_eqb. destruct (bool_decide (suffix p = py ".eml")) eqn:Hs; simpl.
    + apply bool_decide_eq_true in Hs.
      split; [reflexivity|]. split; [split; eauto|]. split; [|auto].
      intros q Hq. injection Hq as <-. rewrite Hf.
      split; [reflexivity|]. split; [eauto | apply suffix_eml_name, Hs].
    + apply bool_decide_eq_false in Hs.
      split; [reflexivity|]. split; [|split; [discriminate | eauto]].
      split; [discriminate | intros [_ Hx]; contradiction].
  - split; [reflexivity|]. split; [|split; [discriminate | eauto]].
    split; [discriminate | intros [[c Hc] _]; discriminate].
  - split; [reflexivity|]. split; [|split; [discriminate | eauto]].
    split; [discriminate | intros [[c Hc] _]; discriminate].
Qed.


(** ** More on the command line *)







(** ** More on the batch *)

(** X7.  When the command line names no files and the scan of the source
    directory (of its whole subtree with the recursion flag) finds no
    match, [main] prints the notice and the closing line, returns
    normally and changes nothing on disk. *)
Theorem main_without_files (argv : list cli_arg) (w : World)
    (args : Namespace) :
  parse_arguments argv w = (Ok args, w) ->
  ns_files args = None ->
  (if ns_recursive args
   then forall p, ~ subtree_match w (ns_source args) p
   else forall p, ~ direct_match w (ns_source args) p) ->
  main argv w
  = (Ok tt,
     emit (EPrint (py "Done.")) (emit (EPrint (py "No EML files found!")) w))
  /\ fs (main argv w).2 = fs w.
Proof.
  intros Hp Hnone Hempty.
  assert (Hf : resolve_files args w = (Ok [], w)).
  { unfold resolve_files, get_eml_files_from. rewrite Hnone.
    destruct (ns_recursive args).
    - destruct (rglob_eml_spec (ns_source args) w) as (l & -> & Hl).
      rewrite (no_elements l); [reflexivity|].
      intros p Hin. apply (Hempty p), Hl, Hin.
    - destruct (glob_eml_spec (ns_source args) w) as (l & -> & Hl).
      rewrite (no_elements l); [reflexivity|].
      intros p Hin. apply (Hempty p), Hl, Hin. }
  rewrite (main_unfold argv w args [] Hp Hf). split; reflexivity.
Qed.



(** ** Nothing is removed *)

Lemma keeps_refl (w : World) : keeps_nodes w w.
Proof. unfold keeps_nodes. eauto. Qed.

Lemma keeps_trans (w w1 w2 : World) :
  keeps_nodes w w1 -> keeps_nodes w1 w2 -> keeps_nodes w w2.
Proof.
  intros (C1 & D1 & F1) (C2 & D2 & F2). split; [congruence|]. split.
  - auto.
  - intros a c Ha. destruct (F1 a c Ha) as [c' Hc']. eauto.
Qed.

(** A change that leaves the disk and the working directory alone. *)
Lemma keeps_same_disk (w w' : World) :
  cwd w' = cwd w -> fs w' = fs w -> keeps_nodes w w'.
Proof. intros C F. unfold keeps_nodes. rewrite F. eauto. Qed.

Lemma keeps_bind {A B} (m : M A) (k : A -> M B) :
  (forall w, keeps_nodes w (m w).2) ->
  (forall a w, keeps_nodes w (k a w).2) ->
  forall w, keeps_nodes w (bind m k w).2.
Proof.
  intros Hm Hk w. unfold bind. specialize (Hm w).
  destruct (m w) as [[a|e] w1]; simpl in Hm; [|exact Hm].
  eapply keeps_trans; [exact Hm | apply Hk].
Qed.

Lemma keeps_for_ {A} (body : A -> M unit) (l : list A) :
  (forall x w, keeps_nodes w (body x w).2) ->
  forall w, keeps_nodes w (for_ l body w).2.
Proof.
  intros Hbody. induction l as [|x l IH]; intros w; simpl.
  - apply keeps_refl.
  - apply keeps_bind; [apply Hbody | intros _; exact IH].
Qed.

Lemma keeps_print (line : str) (w : World) : keeps_nodes w (print line w).2.
Proof. apply keeps_same_disk; reflexivity. Qed.

Lemma keeps_mkdir (p : Path) (w : World) :
  keeps_nodes w (mkdir_exist_ok p w).2.
Proof.
  unfold mkdir_exist_ok.
  destruct (fs w !! resolve (cwd w) p) as [[c|]|] eqn:E;
    try apply keeps_refl.
  destruct (fs w !! parent (resolve (cwd w) p)) as [[c|]|];
    try apply keeps_refl.
  fold (made p w). cbn [snd]. split; [reflexivity|].
  change (fs (made p w)) with (<[resolve (cwd w) p := Dir]> (fs w)). split.
  - intros a Ha. rewrite lookup_insert_ne; [exact Ha | congruence].
  - intros a c Ha. exists c. rewrite lookup_insert_ne; [exact Ha | congruence].
Qed.

Lemma keeps_save_attachment (file : Path) (payload : option bytes) (w : World) :
  keeps_nodes w (save_attachment file payload w).2.
Proof.
  assert (Hfail : fs w !! resolve (cwd w) file = Some Dir
                  \/ fs w !! parent (resolve (cwd w) file) <> Some Dir ->
                  keeps_nodes w (save_attachment file payload w).2).
  { intros H. destruct (save_attachment_fail file payload w H) as [e ->].
    apply keeps_refl. }
  destruct (fs w !! resolve (cwd w) file) as [[c0|]|] eqn:E;
    [| apply Hfail; auto |];
    (destruct (fs w !! parent (resolve (cwd w) file)) as [[c1|]|] eqn:Ep;
     [apply Hfail; right; congruence | | apply Hfail; right; congruence]);
    rewrite (save_attachment_ok file payload w) by congruence;
    cbn [snd]; destruct (saved_delta file payload w) as (_ & _ & Hc);
    (split; [exact Hc|]); rewrite saved_fs; split.
  - intros a Ha. rewrite lookup_insert_ne; [exact Ha | congruence].
  - intros a c Ha.
    destruct (decide (resolve (cwd w) file = a)) as [<- | Hne].
    + rewrite lookup_insert_eq. eauto.
    + rewrite lookup_insert_ne by exact Hne. eauto.
  - intros a Ha. rewrite lookup_insert_ne; [exact Ha | congruence].
  - intros a c Ha. rewrite lookup_insert_ne; [eauto | congruence].
Qed.

Lemma keeps_input (prompt : str) (w : World) : keeps_nodes w (input prompt w).2.
Proof.
  unfold input. destruct (stdin w); apply keeps_same_disk; reflexivity.
Qed.

Lemma keeps_extract_one (basepath : Path) (part : MessagePart) (w : World) :
  keeps_nodes w (extract_one basepath part w).2.
Proof.
  unfold extract_one.
  destruct (get_filename part) as [[|c F]|]; try apply keeps_refl.
  apply keeps_bind; [intros w'; apply keeps_same_disk; reflexivity|].
  intros tok w1. apply keeps_bind; [intros w'; apply keeps_print|].
  intros _ w2. apply keeps_bind; [intros w'; apply keeps_refl|].
  intros payload w3. apply keeps_bind; [intros w'; apply keeps_refl|].
  intros found w4. destruct found.
  - apply keeps_bind; [intros w'; apply keeps_input|].
    intros answer w5.
    destruct (str_eqb (upper uc_upper answer) (py "Y"));
      [apply keeps_save_attachment | apply keeps_print].
  - apply keeps_bind; [intros w'; apply keeps_mkdir|].
    intros _ w5. apply keeps_save_attachment.
Qed.

Lemma keeps_extract_attachments (file destination : Path) (w : World) :
  keeps_nodes w (extract_attachments file destination w).2.
Proof.
  unfold extract_attachments.
  apply keeps_bind; [intros w'; apply keeps_print|].
  intros _ w1. apply keeps_bind.
  { intros w'. unfold open_read.
    destruct (fs w' !! resolve (cwd w') file) as [[c|]|]; apply keeps_refl. }
  intros f w2. apply keeps_bind; [intros w'; apply keeps_refl|].
  intros m w3. cbv zeta.
  destruct (List.filter is_attachment (iter_attachments m));
    [apply keeps_print|].
  apply keeps_for_. intros x w'. apply keeps_extract_one.
Qed.

(** X10.  Neither one extraction nor a whole run of [main] removes
    anything or changes the kind of anything: every directory on disk
    before is a directory after, and every file before is a file after
    (with the same or, after an accepted overwrite, new content). *)
Theorem run_keeps_nodes (argv : list cli_arg) (file destination : Path)
    (w : World) :
  keeps_nodes w (extract_attachments file destination w).2
  /\ keeps_nodes w (main argv w).2.
Proof.
  split; [apply keeps_extract_attachments|].
  unfold main. apply keeps_bind.
  { intros w'. destruct (parse_arguments_run argv w') as [[a ->] | [c ->]];
      apply keeps_refl. }
  intros args w1. apply keeps_bind.
  { intros w'. destruct (resolve_files_run args w') as [fl ->]. apply keeps_refl. }
  intros files w2. apply keeps_bind.
  { intros w'. destruct files; [apply keeps_print | apply keeps_refl]. }
  intros _ w3. apply keeps_bind; [|intros _ w'; apply keeps_print].
  intros w'. apply keeps_for_. intros x w''. apply keeps_extract_attachments.
Qed.

(** ** Discovery without repetition *)






(** X13.  The two ways of naming a message agree in one direction: a file
    that [check_file] accepts, lying directly in a directory [dir], is
    among the files the scan of [dir] without recursion returns (the scan
    may return more: [check_file] refuses directories and a file named
    just [.eml]). *)
Theorem accepted_file_is_discovered (arg_value : str) (dir : Path) (n : str)
    (w : World) :
  (check_file arg_value w).1 = Ok (descend dir [n]) ->
  fs w !! resolve (cwd w) dir = Some Dir ->
  exists files,
    get_eml_files_from dir false w = (Ok files, w)
    /\ In (descend dir [n]) files.
Proof.
  intros Hok Hdir.
  destruct (check_file_accepts arg_value w) as (_ & _ & Hv & _).
  destruct (Hv _ Hok) as (_ & [c Hc] & stem & _ & Hname).
  destruct (glob_eml_spec dir w) as (files & Hf & Hm).
  exists files. split; [exact Hf|]. apply Hm.
  exists n, stem. split; [reflexivity|]. split.
  - unfold name, descend in Hname. simpl in Hname.
    rewrite last_last in Hname. exact Hname.
  - split; [exact Hdir|]. rewrite resolve_descend in Hc. eauto.
Qed.

End Script.

(** * The generated name does not depend on the filtered name *)


(** An extension with a dollar sign, a blank and an exclamation mark goes
    into the name as it is, although the filter of line 25 drops all
    three. *)
Example extension_kept_verbatim :
  target_filename ascii_isalpha ascii_isdigit ascii_isspace
    (py "0123456789abcdef0123") (py "inv/oice.p$d !f")
  = py "0123456789abcdef0123.p$d !f".
Proof. vm_compute. reflexivity. Qed.

(** * Runs on the sample data *)

Local Abbreviation run :=
  (extract_attachments ascii_isalpha ascii_isdigit ascii_isspace plain_upper
     sample_parser).
Local Abbreviation run_one :=
  (extract_one ascii_isalpha ascii_isdigit ascii_isspace plain_upper).
Local Abbreviation run_main :=
  (main ascii_isalpha ascii_isdigit ascii_isspace plain_upper sample_parser).

Lemma plain_upper_not_Y (c : N) :
  128 <= c -> plain_upper c <> [] /\ plain_upper c <> py "Y".
Proof.
  intros Hc. unfold plain_upper. split; [discriminate|].
  intros H. injection H as H. lia.
Qed.





(** A message whose only part has the disposition [attachment] and no file
    name has no true attachment, and yet its extraction does not print the
    line [>> No attachments found.]. *)


Lemma C3_witness :
  (forall c, 128 <= c -> plain_upper c <> [] /\ plain_upper c <> py "Y")
  /\ get_filename report_part = Some (py "report.pdf")
  /\ py "report.pdf" <> []
  /\ get_payload_decode report_part = Ok (Some [Byte.x41])
  /\ is_Some (fs yes_world
              !! (resolve (cwd yes_world) out_dir
                  ++ [generated_name yes_world (py "report.pdf")]))
  /\ stdin yes_world = py "y" :: []
  /\ run_one out_dir report_part yes_world
     = save_attachment (descend out_dir [zero_name]) (Some [Byte.x41])
         (emit (EInput (overwrite_prompt zero_name) (Some (py "y")))
            (set_stdin []
               (emit (EPrint (py ">> Attachment found: " ++ zero_name))
                  (set_drawn 10 yes_world))))
  /\ fs (run_one out_dir report_part yes_world).2 !! [py "out"; zero_name]
     = Some (File [Byte.x41]).
Proof.
  assert (H2 : get_filename report_part = Some (py "report.pdf"))
    by reflexivity.
  assert (H3 : py "report.pdf" <> []) by discriminate.
  assert (H4 : get_payload_decode report_part = Ok (Some [Byte.x41]))
    by reflexivity.
  assert (H5 : is_Some (fs yes_world
                        !! (resolve (cwd yes_world) out_dir
                            ++ [generated_name yes_world (py "report.pdf")])))
    by (exists (File [Byte.x42]); vm_compute; reflexivity).
  assert (H6 : stdin yes_world = py "y" :: []) by reflexivity.
  pose proof (C3_overwrite_only_on_Y ascii_isalpha ascii_isdigit ascii_isspace
                plain_upper plain_upper_not_Y out_dir report_part
                (py "report.pdf") (Some [Byte.x41]) yes_world (py "y") []
                H2 H3 H4 H5 H6) as (Hyes & _ & Hfile).
  split; [exact plain_upper_not_Y|].
  split; [exact H2|]. split; [exact H3|]. split; [exact H4|].
  split; [exact H5|]. split; [exact H6|].
  split; [exact (Hyes (or_intror eq_refl))|].
  destruct (Hfile [Byte.x42] [Byte.x41] (or_intror eq_refl))
    as [Hrun Hfs];
    [vm_compute; reflexivity | vm_compute; reflexivity | reflexivity |].
  rewrite Hrun. cbn [snd]. rewrite Hfs. apply lookup_insert_eq.
Defined.



(** The directory [/mail/x.eml] is returned by the scan of [/mail] without
    recursion: what discovery returns need not be a file. *)



Lemma C7_witness :
  let w3 := (run a_eml root_dir sample_world).2 in
  let w4 := (run bad_eml root_dir w3).2 in
  let e := LibraryError (py "not a message") in
  parse_arguments batch_argv sample_world = (Ok batch_args, sample_world)
  /\ resolve_files batch_args sample_world
     = (Ok ([a_eml] ++ bad_eml :: [b_eml]), sample_world)
  /\ process ascii_isalpha ascii_isdigit ascii_isspace plain_upper
       sample_parser [a_eml] (ns_destination batch_args) sample_world
     = (Ok tt, w3)
  /\ run bad_eml (ns_destination batch_args) w3 = (Raise e, w4)
  /\ run_main batch_argv sample_world = (Raise e, w4)
  /\ ~ In (EPrint (py "PROCESSING FILE " ++ dq ++ py "/mail/b.eml" ++ dq))
          (log (run_main batch_argv sample_world).2).
Proof.
  intros w3 w4 e.
  assert (H1 : parse_arguments batch_argv sample_world = (Ok batch_args, sample_world))
    by (vm_compute; reflexivity).
  assert (H2 : resolve_files batch_args sample_world
               = (Ok ([a_eml] ++ bad_eml :: [b_eml]), sample_world))
    by reflexivity.
  assert (H3 : process ascii_isalpha ascii_isdigit ascii_isspace plain_upper
                 sample_parser [a_eml] (ns_destination batch_args) sample_world
               = (Ok tt, w3)) by (vm_compute; reflexivity).
  assert (H4 : run bad_eml (ns_destination batch_args) w3 = (Raise e, w4))
    by (vm_compute; reflexivity).
  pose proof (C7_first_exception_ends_the_run ascii_isalpha ascii_isdigit
                ascii_isspace plain_upper sample_parser batch_argv
                sample_world batch_args [a_eml] [b_eml] bad_eml w3 w4 e
                H1 H2 H3 H4) as (Hmain & _ & _).
  split; [exact H1|]. split; [exact H2|]. split; [exact H3|].
  split; [exact H4|]. split; [exact Hmain|].
  rewrite Hmain. vm_compute.
  intros H. repeat (destruct H as [H | H]; [discriminate|]). exact H.
Defined.

(** * Further runs on the sample data *)



Lemma extract_one_end_of_input_witness :
  let w := set_stdin [] sample_world in
  get_filename report_part = Some (py "report.pdf")
  /\ py "report.pdf" <> []
  /\ get_payload_decode report_part = Ok (Some [Byte.x41])
  /\ is_Some (fs w !! (resolve (cwd w) out_dir
                       ++ [generated_name w (py "report.pdf")]))
  /\ stdin w = []
  /\ (run_one out_dir report_part w).1 = Raise EOFError
  /\ fs (run_one out_dir report_part w).2 = fs w.
Proof.
  intros w.
  assert (H1 : get_filename report_part = Some (py "report.pdf")) by reflexivity.
  assert (H2 : py "report.pdf" <> []) by discriminate.
  assert (H3 : get_payload_decode report_part = Ok (Some [Byte.x41]))
    by reflexivity.
  assert (H4 : is_Some (fs w !! (resolve (cwd w) out_dir
                                 ++ [generated_name w (py "report.pdf")])))
    by (exists (File [Byte.x42]); vm_compute; reflexivity).
  assert (H5 : stdin w = []) by reflexivity.
  destruct (extract_one_end_of_input ascii_isalpha ascii_isdigit ascii_isspace
              plain_upper out_dir report_part (py "report.pdf")
              (Some [Byte.x41]) w H1 H2 H3 H4 H5) as (Hr & Hfs & _).
  split; [exact H1|]. split; [exact H2|]. split; [exact H3|].
  split; [exact H4|]. split; [exact H5|]. split; [exact Hr | exact Hfs].
Defined.

Lemma main_without_files_witness :
  let argv := [OptSource (py "/out")] in
  let args := MkNamespace out_dir false None (MkPath true [py "mail"]) in
  parse_arguments argv sample_world = (Ok args, sample_world)
  /\ ns_files args = None
  /\ (forall p, ~ direct_match sample_world out_dir p)
  /\ run_main argv sample_world
     = (Ok tt,
        emit (EPrint (py "Done."))
          (emit (EPrint (py "No EML files found!")) sample_world)).
Proof.
  intros argv args.
  assert (H1 : parse_arguments argv sample_world = (Ok args, sample_world))
    by (vm_compute; reflexivity).
  assert (H2 : ns_files args = None) by reflexivity.
  assert (H3 : forall p, ~ direct_match sample_world out_dir p).
  { destruct (glob_eml_spec out_dir sample_world) as (l & Hl & Hm).
    assert (l = []) as -> by (vm_compute in Hl; congruence).
    intros p Hp. apply Hm in Hp. exact Hp. }
  split; [exact H1|]. split; [exact H2|]. split; [exact H3|].
  exact (proj1 (main_without_files ascii_isalpha ascii_isdigit ascii_isspace
                  plain_upper sample_parser argv sample_world args H1 H2 H3)).
Defined.


Lemma accepted_file_is_discovered_witness :
  (check_file (py "/mail/a.eml") sample_world).1
  = Ok (descend mail_dir [py "a.eml"])
  /\ fs sample_world !! resolve (cwd sample_world) mail_dir = Some Dir
  /\ exists files,
       get_eml_files_from mail_dir false sample_world
       = (Ok files, sample_world)
       /\ In (descend mail_dir [py "a.eml"]) files.
Proof.
  assert (H1 : (check_file (py "/mail/a.eml") sample_world).1
               = Ok (descend mail_dir [py "a.eml"]))
    by (vm_compute; reflexivity).
  assert (H2 : fs sample_world !! resolve (cwd sample_world) mail_dir
               = Some Dir) by (vm_compute; reflexivity).
  split; [exact H1|]. split; [exact H2|].
  exact (accepted_file_is_discovered (py "/mail/a.eml") mail_dir (py "a.eml")
           sample_world H1 H2).
Defined.
